(** * plasma-nm: the connection editor's setting widgets and network model

    A shallow embedding of the parts of plasma-nm that validate and map form
    fields: the editor's [main], the WireGuard setting widget, the bridge
    setting widget and the static [NetworkModel].

    Widgets are records of their observable state, slots are functions from
    state to state, and calls that can go wrong (a null [Ptr], an index past
    the end of a [QList]) return a [Fault].  Qt and NetworkManagerQt classes
    are modelled by the part of their documented behaviour that the code
    relies on. *)

From Stdlib Require Import Ascii String ZArith Lia.
From stdpp Require Import base option list strings functions gmap.
From Equations Require Import Equations.

Open Scope string_scope.
Open Scope list_scope.

(** ** Qt value classes and widgets *)

Module Qt.

(** [QString], over 8-bit characters. *)
Abbreviation QString := string (only parsing).

Definition isEmpty (s : QString) : bool :=
  match s with
  | EmptyString => true
  | String _ _ => false
  end.

(** [QString::indexOf(sep)]: position of the first occurrence, if any. *)
Fixpoint indexOf (sep s : QString) : option nat :=
  if String.prefix sep s then Some 0
  else match s with
       | EmptyString => None
       | String _ s' => S <$> indexOf sep s'
       end.

(** [QString::contains(sub)]. *)
Definition contains (sub s : QString) : bool :=
  match indexOf sub s with
  | Some _ => true
  | None => false
  end.

(** [QString::left(n)] and [QString::mid(n)]. *)
Fixpoint left (n : nat) (s : QString) : QString :=
  match n, s with
  | S n', String c s' => String c (left n' s')
  | _, _ => EmptyString
  end.

Fixpoint mid (n : nat) (s : QString) : QString :=
  match n, s with
  | S n', String _ s' => mid n' s'
  | _, _ => s
  end.

Definition inspect {A} (a : A) : {b | a = b} := exist _ a eq_refl.

(** The loop of [QString::split(sep)] (with [KeepEmptyParts]) for a separator
    [String c sep] of at least one character:
<<
    while ((end = indexOf(sep, start)) != -1) {
        list.append(mid(start, end - start));
        start = end + sep.size();
    }
    list.append(mid(start));
>>
    The recursion is on the text still to be scanned, [mid(start)]. *)
Equations? split_loop (c : ascii) (sep s : QString) : list QString
  by wf (String.length s) lt :=
  split_loop c sep s with inspect (indexOf (String c sep) s) := {
    | exist _ None _ => [s]
    | exist _ (Some i) H =>
        left i s :: split_loop c sep (mid (i + String.length (String c sep)) s) }.
Proof.
  assert (Hmid : forall n t, String.length (mid n t) = String.length t - n).
  { intros n; induction n; intros [|a t]; simpl; auto. }
  rewrite Hmid. destruct s as [|a s]; [discriminate H|]. simpl. lia.
Qed.

(** [QString::split(sep)].  With an empty separator Qt's loop advances one
    character at a time and yields an empty first and last part. *)
Definition split (sep s : QString) : list QString :=
  match sep with
  | EmptyString =>
      EmptyString :: ((fun a => String a EmptyString) <$> list_ascii_of_string s)
        ++ [EmptyString]
  | String c sep' => split_loop c sep' s
  end.

(** [QString::remove(str)] for a one-character [str]: every occurrence of
    the character is dropped. *)
Fixpoint remove (c : ascii) (s : QString) : QString :=
  match s with
  | EmptyString => EmptyString
  | String a s' => if Ascii.eqb a c then remove c s' else String a (remove c s')
  end.

(** [QChar::isSpace] on the 8-bit range: tab, line feed, vertical tab, form
    feed, carriage return and space. *)
Definition isSpace (a : ascii) : bool :=
  let n := nat_of_ascii a in
  ((9 <=? n)%nat && (n <=? 13)%nat) || (n =? 32)%nat.

Fixpoint trimmed_left (s : QString) : QString :=
  match s with
  | EmptyString => EmptyString
  | String a s' => if isSpace a then trimmed_left s' else s
  end.

Fixpoint trimmed_right (s : QString) : QString :=
  match s with
  | EmptyString => EmptyString
  | String a s' =>
      let r := trimmed_right s' in
      if isSpace a && isEmpty r then EmptyString else String a r
  end.

(** [QString::trimmed()]. *)
Definition trimmed (s : QString) : QString := trimmed_right (trimmed_left s).

(** [QList::operator[]] is only defined inside the list; a null [Ptr] must
    not be dereferenced. *)
Inductive Fault :=
| NullPointer
| IndexOutOfRange (index size : nat).

Definition at_ {A} (l : list A) (i : nat) : Fault + A :=
  match l !! i with
  | Some x => inr x
  | None => inl (IndexOutOfRange i (length l))
  end.

Definition bind {A B} (m : Fault + A) (k : A -> Fault + B) : Fault + B :=
  match m with
  | inl e => inl e
  | inr x => k x
  end.

(** [QValidator::State] and a validator, seen through [validate].  The
    validators used by the widgets read the text only: neither the text nor
    the cursor position handed to [validate] changes the answer for the
    next call. *)
Inductive State := Invalid | Intermediate | Acceptable.

#[global] Instance State_eq_dec : EqDecision State.
Proof. solve_decision. Defined.

Record QValidator := { validate : QString -> State }.

(** [QValidator::Acceptable == v->validate(value, pos)]. *)
Definition accepts (v : QValidator) (value : QString) : bool :=
  bool_decide (validate v value = Acceptable).

(** Modelled from the spec: a validator checks "whether a text field's
    current value is a syntactically acceptable instance of its expected
    format (IPv4/IPv6 address, CIDR, cryptographic key, port number)".  The
    empty text is no such instance; [rejects_empty] says so of a validator
    whose code is not at hand. *)
Definition rejects_empty (v : QValidator) : Prop :=
  validate v EmptyString <> Acceptable.

(** [QLineEdit]: [setText] keeps at most [maxLength] characters; in the
    normal echo mode [displayText()] is [text()]. *)
Record QLineEdit := { text : QString; maxLength : Z }.

Definition setText (t : QString) (e : QLineEdit) : QLineEdit :=
  {| text := if isEmpty t then t else left (Z.to_nat (maxLength e)) t;
     maxLength := maxLength e |}.

Definition displayText (e : QLineEdit) : QString := text e.

(** 32-bit [int] and [uint], and the conversions between them. *)
Definition to_int (z : Z) : Z := ((z + 2 ^ 31) mod 2 ^ 32 - 2 ^ 31)%Z.
Definition to_uint (z : Z) : Z := (z mod 2 ^ 32)%Z.
Definition is_uint (z : Z) : Prop := (0 <= z < 2 ^ 32)%Z.
Definition is_int (z : Z) : Prop := (- 2 ^ 31 <= z < 2 ^ 31)%Z.

(** [QSpinBox]: [setValue] bounds the value to the box's range. *)
Record QSpinBox := { minimum : Z; maximum : Z; value : Z }.

Definition setValue (v : Z) (b : QSpinBox) : QSpinBox :=
  {| minimum := minimum b;
     maximum := maximum b;
     value := if (v <? minimum b)%Z then minimum b
              else if (maximum b <? v)%Z then maximum b
              else v |}.

Definition in_range (b : QSpinBox) (v : Z) : Prop :=
  (minimum b <= v <= maximum b)%Z.

End Qt.

(** ** NetworkManagerQt: the library-owned data model *)

Module NetworkManager.
Import Qt.

(** [NMStringMap] is [QMap<QString, QString>]; reading a const map with
    [operator[]] gives the empty string for a key that is not there. *)
Abbreviation NMStringMap := (gmap string string) (only parsing).

Definition value_of (m : NMStringMap) (key : QString) : QString :=
  default EmptyString (m !! key).

(** [NetworkManager::Device::Type]. *)
Inductive DeviceType :=
| UnknownType | Ethernet | Wifi | Unused1 | Unused2 | Bluetooth | OlpcMesh
| Wimax | Modem | InfiniBand | Bond | Vlan | Adsl | Bridge.

Record Device := { type : DeviceType; uni : QString }.

(** [NetworkManager::ConnectionSettings::ConnectionType], as far as the bridge
    editor offers it, and a stored connection with the settings read here. *)
Inductive ConnectionType := Wired | VlanConnection | Wireless | OtherConnection (n : Z).

Record Connection := {
  name : QString;
  uuid : QString;
  master : QString;
  slaveType : QString;
  connectionType : ConnectionType }.

(** [NetworkManager::BridgeSetting]: the seven properties the bridge widget
    reads and writes.  The numeric ones are [uint]. *)
Record BridgeSetting := {
  interfaceName : QString;
  agingTime : Z;
  stp : bool;
  priority : Z;
  forwardDelay : Z;
  helloTime : Z;
  maxAge : Z }.

Definition setInterfaceName (v : QString) (s : BridgeSetting) : BridgeSetting :=
  {| interfaceName := v; agingTime := agingTime s; stp := stp s;
     priority := priority s; forwardDelay := forwardDelay s;
     helloTime := helloTime s; maxAge := maxAge s |}.

Definition setAgingTime (v : Z) (s : BridgeSetting) : BridgeSetting :=
  {| interfaceName := interfaceName s; agingTime := v; stp := stp s;
     priority := priority s; forwardDelay := forwardDelay s;
     helloTime := helloTime s; maxAge := maxAge s |}.

Definition setStp (v : bool) (s : BridgeSetting) : BridgeSetting :=
  {| interfaceName := interfaceName s; agingTime := agingTime s; stp := v;
     priority := priority s; forwardDelay := forwardDelay s;
     helloTime := helloTime s; maxAge := maxAge s |}.

Definition setPriority (v : Z) (s : BridgeSetting) : BridgeSetting :=
  {| interfaceName := interfaceName s; agingTime := agingTime s; stp := stp s;
     priority := v; forwardDelay := forwardDelay s;
     helloTime := helloTime s; maxAge := maxAge s |}.

Definition setForwardDelay (v : Z) (s : BridgeSetting) : BridgeSetting :=
  {| interfaceName := interfaceName s; agingTime := agingTime s; stp := stp s;
     priority := priority s; forwardDelay := v;
     helloTime := helloTime s; maxAge := maxAge s |}.

Definition setHelloTime (v : Z) (s : BridgeSetting) : BridgeSetting :=
  {| interfaceName := interfaceName s; agingTime := agingTime s; stp := stp s;
     priority := priority s; forwardDelay := forwardDelay s;
     helloTime := v; maxAge := maxAge s |}.

Definition setMaxAge (v : Z) (s : BridgeSetting) : BridgeSetting :=
  {| interfaceName := interfaceName s; agingTime := agingTime s; stp := stp s;
     priority := priority s; forwardDelay := forwardDelay s;
     helloTime := helloTime s; maxAge := v |}.

(** The numeric properties of a setting are [uint] values. *)
Definition BridgeSetting_wf (s : BridgeSetting) : Prop :=
  is_uint (agingTime s) /\ is_uint (priority s) /\ is_uint (forwardDelay s)
  /\ is_uint (helloTime s) /\ is_uint (maxAge s).

(** [NetworkManager::VpnSetting]: the service type and the data map;
    [isNull] is [Setting::isNull()]. *)
Record VpnSetting := {
  isNull : bool;
  serviceType : QString;
  data : NMStringMap }.

Definition setData (m : NMStringMap) (s : VpnSetting) : VpnSetting :=
  {| isNull := isNull s; serviceType := serviceType s; data := m |}.

Definition setServiceType (t : QString) (s : VpnSetting) : VpnSetting :=
  {| isNull := isNull s; serviceType := t; data := data s |}.

(** A default-constructed [VpnSetting]: not initialised, no service type, no
    data. *)
Definition VpnSetting_new : VpnSetting :=
  {| isNull := true; serviceType := EmptyString; data := ∅ |}.

End NetworkManager.

(** ** editor/main.cpp *)

Module Editor.
Import Qt.

(** What [main] does to the editor and the application, in order. *)
Inductive Call :=
| NewConnectionEditor
| EditConnection (uuid : QString)
| Show
| Exec.

#[global] Instance Call_eq_dec : EqDecision Call.
Proof. solve_decision. Defined.

(** [KCmdLineArgs::parsedArgs()]: the positional arguments of the command
    line, with [count()] and [arg(n)]; [main] calls [arg(0)] only when
    [count()] is not zero. *)
Record KCmdLineArgs := { positional : list QString }.

Definition count (args : KCmdLineArgs) : Z := Z.of_nat (length (positional args)).

Definition arg (args : KCmdLineArgs) (n : nat) : QString :=
  default EmptyString (positional args !! n).

Definition main (args : KCmdLineArgs) : list Call :=
  NewConnectionEditor
    :: (if bool_decide (count args <> 0%Z)
        then [EditConnection (arg args 0)]
        else [Show])
    ++ [Exec].

End Editor.

(** ** active/setting/networkmodel.cpp *)

Module NetworkModel.
Import Qt.

(** [NetworkModelItem::NetworkType] and an item as its constructor receives
    it: a type and a path. *)
Inductive NetworkType := Ethernet | Modem | Wifi | Vpn.

Record NetworkModelItem := { itemType : NetworkType; path : QString }.

(** A [NetworkModelItem *]: null or an item. *)
Abbreviation ItemPtr := (option NetworkModelItem) (only parsing).

(** The constructor's locals and the list it fills. *)
Record Loop := {
  nonVirtualDevice : bool;
  item : ItemPtr;
  m_networkItems : list ItemPtr }.

(** One pass of the [foreach] body. *)
Definition visit (st : Loop) (device : NetworkManager.Device) : Loop :=
  let st1 :=
    match NetworkManager.type device with
    | NetworkManager.Ethernet =>
        {| nonVirtualDevice := true;
           item := Some {| itemType := Ethernet; path := NetworkManager.uni device |};
           m_networkItems := m_networkItems st |}
    | NetworkManager.Modem =>
        {| nonVirtualDevice := true;
           item := Some {| itemType := Modem; path := NetworkManager.uni device |};
           m_networkItems := m_networkItems st |}
    | NetworkManager.Wifi =>
        {| nonVirtualDevice := true;
           item := Some {| itemType := Wifi; path := NetworkManager.uni device |};
           m_networkItems := m_networkItems st |}
    | _ => st
    end in
  if nonVirtualDevice st1
  then {| nonVirtualDevice := false;
          item := None;
          m_networkItems := m_networkItems st1 ++ [item st1] |}
  else st1.

(** [NetworkModel::NetworkModel]: the model is its item list. *)
Record NetworkModel := { networkItems : list ItemPtr }.

Definition create (networkInterfaces : list NetworkManager.Device) : NetworkModel :=
  let st0 := {| nonVirtualDevice := false; item := None; m_networkItems := [] |} in
  let st := foldl visit st0 networkInterfaces in
  {| networkItems :=
       m_networkItems st ++ [Some {| itemType := Vpn; path := EmptyString |}] |}.

Definition count (m : NetworkModel) : Z := Z.of_nat (length (networkItems m)).

Definition rowCount (m : NetworkModel) (parent : Z) : Z :=
  Z.of_nat (length (networkItems m)).

(** The roles of [data] and the [QVariant] it returns; an item's name and
    icon are computed by [NetworkModelItem]. *)
Inductive Role := TypeRole | NameRole | IconRole | PathRole | OtherRole (r : Z).

Inductive QVariant :=
| NoValue
| TypeValue (t : NetworkType)
| StringValue (s : QString).

Section Data.
Variable itemName : NetworkModelItem -> QString.
Variable itemIcon : NetworkModelItem -> QString.

Definition data (m : NetworkModel) (row : Z) (role : Role) : Fault + QVariant :=
  if bool_decide (0 <= row)%Z && bool_decide (row < Z.of_nat (length (networkItems m)))%Z
  then
    match networkItems m !! Z.to_nat row with
    | Some (Some it) =>
        inr match role with
            | TypeRole => TypeValue (itemType it)
            | NameRole => StringValue (itemName it)
            | IconRole => StringValue (itemIcon it)
            | PathRole => StringValue (path it)
            | OtherRole _ => NoValue
            end
    | Some None => inl NullPointer
    | None => inl (IndexOutOfRange (Z.to_nat row) (length (networkItems m)))
    end
  else inr NoValue.

(** The calls a view can make on the model; all are [const] members. *)
Inductive Request :=
| CallCount
| CallRowCount (parent : Z)
| CallData (row : Z) (role : Role).

Inductive Reply :=
| IntReply (n : Z)
| DataReply (v : Fault + QVariant).

Definition serve (m : NetworkModel) (r : Request) : NetworkModel * Reply :=
  match r with
  | CallCount => (m, IntReply (count m))
  | CallRowCount parent => (m, IntReply (rowCount m parent))
  | CallData row role => (m, DataReply (data m row role))
  end.

Definition serve_all (m : NetworkModel) (rs : list Request) : NetworkModel :=
  foldl (fun m r => fst (serve m r)) m rs.

End Data.

(** The devices that get an item, and the item of such a device. *)
Definition has_item (device : NetworkManager.Device) : bool :=
  match NetworkManager.type device with
  | NetworkManager.Ethernet | NetworkManager.Modem | NetworkManager.Wifi => true
  | _ => false
  end.

Definition item_of (device : NetworkManager.Device) : option NetworkModelItem :=
  match NetworkManager.type device with
  | NetworkManager.Ethernet =>
      Some {| itemType := Ethernet; path := NetworkManager.uni device |}
  | NetworkManager.Modem =>
      Some {| itemType := Modem; path := NetworkManager.uni device |}
  | NetworkManager.Wifi =>
      Some {| itemType := Wifi; path := NetworkManager.uni device |}
  | _ => None
  end.

End NetworkModel.

(** ** The WireGuard setting widget (wireguardwidget.cpp) *)

Module WireGuard.
Import Qt.
Export NetworkManager (VpnSetting, VpnSetting_new, setData, setServiceType, value_of).

(** The constants of nm-wireguard-service.h. *)
Class Constants := {
  NM_DBUS_SERVICE_WIREGUARD : QString;
  NM_WG_KEY_ADDR_IP4 : QString;
  NM_WG_KEY_ADDR_IP6 : QString;
  NM_WG_KEY_PRIVATE_KEY : QString;
  NM_WG_KEY_PUBLIC_KEY : QString;
  NM_WG_KEY_ALLOWED_IPS : QString;
  NM_WG_KEY_ENDPOINT : QString }.

(** The validators the constructor installs on the line edits, the key
    validator it keeps in [Private], and the three static validators of
    [checkEndpointValid].  The validator classes are not part of these
    sources, so each validator is a parameter.  (The port edit also gets a
    [QIntValidator] for 0..65535, which restricts typing and is not
    consulted by any check.) *)
Class Validators := {
  ip4WithCidrValidator : QValidator;
  ip6WithCidrValidator : QValidator;
  keyValidator : QValidator;
  allowedIPsValidator : QValidator;
  fqdnValidator : QValidator;
  ipv4Validator : QValidator;
  ipv6Validator : QValidator }.

(** The line edits of [Ui_WireGuardProp]. *)
Inductive LineEdit :=
| addressIPv4LineEdit
| addressIPv6LineEdit
| privateKeyLineEdit
| publicKeyLineEdit
| allowedIPsLineEdit
| endpointAddressLineEdit
| endpointPortLineEdit.

#[global] Instance LineEdit_eq_dec : EqDecision LineEdit.
Proof. solve_decision. Defined.

(** The palette of a line edit: the one it was created with, or one of the
    two palettes of [Private]. *)
Inductive Palette := applicationPalette | normalPalette | warningPalette.

(** [WireGuardSettingWidget::Private]; [d_setting] is [d->setting]. *)
Record Private := {
  ui : LineEdit -> QLineEdit;
  palette : LineEdit -> Palette;
  d_setting : option VpnSetting;
  addressValid : bool;
  privateKeyValid : bool;
  publicKeyValid : bool;
  allowedIpsValid : bool;
  endpointValid : bool }.

Definition with_ui (f : LineEdit -> QLineEdit) (d : Private) : Private :=
  {| ui := f; palette := palette d; d_setting := d_setting d;
     addressValid := addressValid d; privateKeyValid := privateKeyValid d;
     publicKeyValid := publicKeyValid d; allowedIpsValid := allowedIpsValid d;
     endpointValid := endpointValid d |}.

Definition with_palette (f : LineEdit -> Palette) (d : Private) : Private :=
  {| ui := ui d; palette := f; d_setting := d_setting d;
     addressValid := addressValid d; privateKeyValid := privateKeyValid d;
     publicKeyValid := publicKeyValid d; allowedIpsValid := allowedIpsValid d;
     endpointValid := endpointValid d |}.

Definition with_addressValid (b : bool) (d : Private) : Private :=
  {| ui := ui d; palette := palette d; d_setting := d_setting d;
     addressValid := b; privateKeyValid := privateKeyValid d;
     publicKeyValid := publicKeyValid d; allowedIpsValid := allowedIpsValid d;
     endpointValid := endpointValid d |}.

Definition with_privateKeyValid (b : bool) (d : Private) : Private :=
  {| ui := ui d; palette := palette d; d_setting := d_setting d;
     addressValid := addressValid d; privateKeyValid := b;
     publicKeyValid := publicKeyValid d; allowedIpsValid := allowedIpsValid d;
     endpointValid := endpointValid d |}.

Definition with_publicKeyValid (b : bool) (d : Private) : Private :=
  {| ui := ui d; palette := palette d; d_setting := d_setting d;
     addressValid := addressValid d; privateKeyValid := privateKeyValid d;
     publicKeyValid := b; allowedIpsValid := allowedIpsValid d;
     endpointValid := endpointValid d |}.

Definition with_allowedIpsValid (b : bool) (d : Private) : Private :=
  {| ui := ui d; palette := palette d; d_setting := d_setting d;
     addressValid := addressValid d; privateKeyValid := privateKeyValid d;
     publicKeyValid := publicKeyValid d; allowedIpsValid := b;
     endpointValid := endpointValid d |}.

Definition with_endpointValid (b : bool) (d : Private) : Private :=
  {| ui := ui d; palette := palette d; d_setting := d_setting d;
     addressValid := addressValid d; privateKeyValid := privateKeyValid d;
     publicKeyValid := publicKeyValid d; allowedIpsValid := allowedIpsValid d;
     endpointValid := b |}.

(** [Private::Private]: the initial flags; the endpoint is optional, so blank
    is valid. *)
Definition Private_new (ui0 : LineEdit -> QLineEdit) (s : option VpnSetting) : Private :=
  {| ui := ui0; palette := fun _ => applicationPalette; d_setting := s;
     addressValid := false; privateKeyValid := false; publicKeyValid := false;
     allowedIpsValid := false; endpointValid := true |}.

Definition setBackground (w : LineEdit) (result : bool) (d : Private) : Private :=
  with_palette (<[w := if result then normalPalette else warningPalette]> (palette d)) d.

Definition isValid (d : Private) : bool :=
  addressValid d
  && privateKeyValid d
  && publicKeyValid d
  && allowedIpsValid d
  && endpointValid d.

Section Slots.
Context {V : Validators}.

(** The check slots.  Each ends in [slotWidgetChanged()], which notifies the
    dialog and leaves [Private] as it is. *)
Definition checkAddressValid (d : Private) : Private :=
  let ip4valid := accepts ip4WithCidrValidator (displayText (ui d addressIPv4LineEdit)) in
  let ip4present := negb (isEmpty (displayText (ui d addressIPv4LineEdit))) in
  let ip6valid := accepts ip6WithCidrValidator (displayText (ui d addressIPv6LineEdit)) in
  let ip6present := negb (isEmpty (displayText (ui d addressIPv6LineEdit))) in
  let d1 :=
    with_addressValid
      ((ip4valid && ip6valid) || (ip4valid && negb ip6present) || (negb ip4present && ip6valid))
      d in
  setBackground addressIPv6LineEdit (addressValid d1)
    (setBackground addressIPv4LineEdit (addressValid d1) d1).

Definition checkPrivateKeyValid (d : Private) : Private :=
  let d1 := with_privateKeyValid (accepts keyValidator (text (ui d privateKeyLineEdit))) d in
  setBackground privateKeyLineEdit (privateKeyValid d1) d1.

Definition checkPublicKeyValid (d : Private) : Private :=
  let d1 :=
    with_publicKeyValid (accepts keyValidator (displayText (ui d publicKeyLineEdit))) d in
  setBackground publicKeyLineEdit (publicKeyValid d1) d1.

Definition checkAllowedIpsValid (d : Private) : Private :=
  let d1 :=
    with_allowedIpsValid
      (accepts allowedIPsValidator (displayText (ui d allowedIPsLineEdit))) d in
  setBackground allowedIPsLineEdit (allowedIpsValid d1) d1.

Definition checkEndpointValid (d : Private) : Private :=
  let addressValue := displayText (ui d endpointAddressLineEdit) in
  let portString := displayText (ui d endpointPortLineEdit) in
  let addressValid :=
    accepts fqdnValidator addressValue
    || accepts ipv4Validator addressValue
    || accepts ipv6Validator addressValue in
  let bothEmpty := isEmpty addressValue && isEmpty portString in
  let portValid := negb (isEmpty portString) in
  let d1 := with_endpointValid (bothEmpty || (addressValid && portValid)) d in
  setBackground endpointPortLineEdit (bothEmpty || portValid)
    (setBackground endpointAddressLineEdit (bothEmpty || addressValid) d1).

(** The address of an endpoint is accepted when one of the three static
    validators accepts it. *)
Definition endpoint_address_accepted (addressValue : QString) : Prop :=
  validate fqdnValidator addressValue = Acceptable
  \/ validate ipv4Validator addressValue = Acceptable
  \/ validate ipv6Validator addressValue = Acceptable.

(** The slot the constructor connects to a line edit's [textChanged]. *)
Definition textChanged (w : LineEdit) : Private -> Private :=
  match w with
  | addressIPv4LineEdit | addressIPv6LineEdit => checkAddressValid
  | privateKeyLineEdit => checkPrivateKeyValid
  | publicKeyLineEdit => checkPublicKeyValid
  | allowedIPsLineEdit => checkAllowedIpsValid
  | endpointAddressLineEdit | endpointPortLineEdit => checkEndpointValid
  end.

(** [w->setText(t)]: the text is stored and, when it differs from the old
    one, [textChanged] runs the connected slot. *)
Definition setText (w : LineEdit) (t : QString) (d : Private) : Private :=
  let e := Qt.setText t (ui d w) in
  let d1 := with_ui (<[w := e]> (ui d)) d in
  if bool_decide (text e = text (ui d w)) then d1 else textChanged w d1.

Context {K : Constants}.

(** The list [loadConfig] splits the stored endpoint into. *)
Definition endpointList (dataMap : gmap string string) : list QString :=
  let storedEndpoint := value_of dataMap NM_WG_KEY_ENDPOINT in
  if contains "]:" storedEndpoint
  then split "]:" (value_of dataMap NM_WG_KEY_ENDPOINT)
  else split ":" (value_of dataMap NM_WG_KEY_ENDPOINT).

Definition loadConfig (d : Private) : Fault + Private :=
  match d_setting d with
  | None => inl NullPointer
  | Some st =>
      let dataMap := NetworkManager.data st in
      let d1 := setText addressIPv4LineEdit (value_of dataMap NM_WG_KEY_ADDR_IP4) d in
      let d2 := setText addressIPv6LineEdit (value_of dataMap NM_WG_KEY_ADDR_IP6) d1 in
      let d3 := setText privateKeyLineEdit (value_of dataMap NM_WG_KEY_PRIVATE_KEY) d2 in
      let d4 := setText publicKeyLineEdit (value_of dataMap NM_WG_KEY_PUBLIC_KEY) d3 in
      let d5 := setText allowedIPsLineEdit (value_of dataMap NM_WG_KEY_ALLOWED_IPS) d4 in
      bind (at_ (endpointList dataMap) 0) (fun e0 =>
        let d6 := setText endpointAddressLineEdit (remove "["%char e0) d5 in
        bind (at_ (endpointList dataMap) 1) (fun e1 =>
          inr (setText endpointPortLineEdit e1 d6)))
  end.

Definition setProperty (data : gmap string string) (key value : QString)
  : gmap string string :=
  if negb (isEmpty value) then <[key := value]> data else delete key data.

(** [setting()]: the [VpnSetting] whose [toMap()] is returned. *)
Definition setting (d : Private) : Fault + VpnSetting :=
  match d_setting d with
  | None => inl NullPointer
  | Some st =>
      let data := NetworkManager.data st in
      let setting := setServiceType NM_DBUS_SERVICE_WIREGUARD VpnSetting_new in
      let data := setProperty data NM_WG_KEY_ADDR_IP4 (displayText (ui d addressIPv4LineEdit)) in
      let data := setProperty data NM_WG_KEY_ADDR_IP6 (displayText (ui d addressIPv6LineEdit)) in
      let data := setProperty data NM_WG_KEY_PRIVATE_KEY (text (ui d privateKeyLineEdit)) in
      let data := setProperty data NM_WG_KEY_PUBLIC_KEY (displayText (ui d publicKeyLineEdit)) in
      let data := setProperty data NM_WG_KEY_ALLOWED_IPS (displayText (ui d allowedIPsLineEdit)) in
      let addressString := displayText (ui d endpointAddressLineEdit) in
      let data :=
        if negb (isEmpty addressString)
        then
          if contains ":" addressString
          then setProperty data NM_WG_KEY_ENDPOINT
                 ("[" +:+ trimmed (displayText (ui d endpointAddressLineEdit))
                  +:+ "]:" +:+ trimmed (displayText (ui d endpointPortLineEdit)))
          else setProperty data NM_WG_KEY_ENDPOINT
                 (trimmed (displayText (ui d endpointAddressLineEdit))
                  +:+ ":" +:+ trimmed (displayText (ui d endpointPortLineEdit)))
        else data in
      inr (setData data setting)
  end.

(** The five line edits that [setting()] saves under a data key of their
    own, and the six keys it writes. *)
Definition data_fields : list (LineEdit * QString) :=
  [ (addressIPv4LineEdit, NM_WG_KEY_ADDR_IP4);
    (addressIPv6LineEdit, NM_WG_KEY_ADDR_IP6);
    (privateKeyLineEdit, NM_WG_KEY_PRIVATE_KEY);
    (publicKeyLineEdit, NM_WG_KEY_PUBLIC_KEY);
    (allowedIPsLineEdit, NM_WG_KEY_ALLOWED_IPS) ].

Definition data_keys : list QString :=
  [ NM_WG_KEY_ADDR_IP4; NM_WG_KEY_ADDR_IP6; NM_WG_KEY_PRIVATE_KEY;
    NM_WG_KEY_PUBLIC_KEY; NM_WG_KEY_ALLOWED_IPS; NM_WG_KEY_ENDPOINT ].

(** The constructor: the setting is loaded when there is one, then every
    check runs once. *)
Definition create (ui0 : LineEdit -> QLineEdit) (s : option VpnSetting) : Fault + Private :=
  let d := Private_new ui0 s in
  bind (match s with
        | Some st => if negb (NetworkManager.isNull st) then loadConfig d else inr d
        | None => inr d
        end)
       (fun d1 =>
          inr (checkEndpointValid
                 (checkAllowedIpsValid
                    (checkPublicKeyValid
                       (checkPrivateKeyValid
                          (checkAddressValid d1)))))).

End Slots.

End WireGuard.

(** ** The bridge setting widget (bridgewidget.cpp) *)

Module Bridge.
Import Qt.
Export NetworkManager (BridgeSetting, BridgeSetting_wf, Connection).

(** An item of the [bridges] list widget: its label and its [Qt::UserRole]
    data. *)
Record QListWidgetItem := { label : QString; userData : QString }.

(** The widgets of [Ui::BridgeWidget] that the code reads or writes, with
    the lengths and ranges the form gives them; [stpGroup] is the checked
    state of the checkable group box. *)
Record Ui := {
  ifaceName : QLineEdit;
  agingTime : QSpinBox;
  stpGroup : bool;
  priority : QSpinBox;
  forwardDelay : QSpinBox;
  helloTime : QSpinBox;
  maxAge : QSpinBox;
  bridges : list QListWidgetItem }.

(** [BridgeWidget]; [type] is [SettingWidget::type()]. *)
Record BridgeWidget := {
  m_uuid : QString;
  m_id : QString;
  type : QString;
  m_ui : Ui }.

Definition with_ui (u : Ui) (w : BridgeWidget) : BridgeWidget :=
  {| m_uuid := m_uuid w; m_id := m_id w; type := type w; m_ui := u |}.

Definition with_bridges (l : list QListWidgetItem) (u : Ui) : Ui :=
  {| ifaceName := ifaceName u; agingTime := agingTime u; stpGroup := stpGroup u;
     priority := priority u; forwardDelay := forwardDelay u;
     helloTime := helloTime u; maxAge := maxAge u; bridges := l |}.

Definition loadConfig (bridgeSetting : BridgeSetting) (w : BridgeWidget) : BridgeWidget :=
  let u := m_ui w in
  let stp := NetworkManager.stp bridgeSetting in
  with_ui
    {| ifaceName := setText (NetworkManager.interfaceName bridgeSetting) (ifaceName u);
       agingTime := setValue (to_int (NetworkManager.agingTime bridgeSetting)) (agingTime u);
       stpGroup := stp;
       priority :=
         if stp then setValue (to_int (NetworkManager.priority bridgeSetting)) (priority u)
         else priority u;
       forwardDelay :=
         if stp
         then setValue (to_int (NetworkManager.forwardDelay bridgeSetting)) (forwardDelay u)
         else forwardDelay u;
       helloTime :=
         if stp then setValue (to_int (NetworkManager.helloTime bridgeSetting)) (helloTime u)
         else helloTime u;
       maxAge :=
         if stp then setValue (to_int (NetworkManager.maxAge bridgeSetting)) (maxAge u)
         else maxAge u;
       bridges := bridges u |}
    w.

Section Widget.
(** A default-constructed [NetworkManager::BridgeSetting]. *)
Variable BridgeSetting_new : BridgeSetting.
(** The label of a slave item,
    [QString("%1 (%2)").arg(name).arg(typeAsString(connectionType))]. *)
Variable slaveLabel : QString -> NetworkManager.ConnectionType -> QString.

(** [setting()]: the [BridgeSetting] whose [toMap()] is returned. *)
Definition setting (w : BridgeWidget) : BridgeSetting :=
  let u := m_ui w in
  let s := NetworkManager.setInterfaceName (text (ifaceName u)) BridgeSetting_new in
  let s := NetworkManager.setAgingTime (to_uint (value (agingTime u))) s in
  let stp := stpGroup u in
  let s := NetworkManager.setStp stp s in
  if stp
  then
    let s := NetworkManager.setPriority (to_uint (value (priority u))) s in
    let s := NetworkManager.setForwardDelay (to_uint (value (forwardDelay u))) s in
    let s := NetworkManager.setHelloTime (to_uint (value (helloTime u))) s in
    NetworkManager.setMaxAge (to_uint (value (maxAge u))) s
  else s.

(** The test of [populateBridges] for one connection. *)
Definition isSlave (w : BridgeWidget) (connection : Connection) : bool :=
  let master := NetworkManager.master connection in
  bool_decide (master = m_uuid w)
  || (negb (isEmpty (m_id w)) && bool_decide (master = m_id w)).

Definition slaveItem (connection : Connection) : QListWidgetItem :=
  {| label := slaveLabel (NetworkManager.name connection)
                (NetworkManager.connectionType connection);
     userData := NetworkManager.uuid connection |}.

(** One pass of the loop over [NetworkManager::listConnections()]. *)
Definition addIfSlave (w : BridgeWidget) (connection : Connection) : BridgeWidget :=
  if isSlave w connection
     && bool_decide (NetworkManager.slaveType connection = type w)
  then with_ui (with_bridges (bridges (m_ui w) ++ [slaveItem connection]) (m_ui w)) w
  else w.

Definition populateBridges (listConnections : list Connection) (w : BridgeWidget)
  : BridgeWidget :=
  foldl addIfSlave (with_ui (with_bridges [] (m_ui w)) w) listConnections.

(** [QListWidget::count()]. *)
Definition count (l : list QListWidgetItem) : Z := Z.of_nat (length l).

Definition isValid (w : BridgeWidget) : bool :=
  negb (isEmpty (text (ifaceName (m_ui w))))
  && bool_decide (count (bridges (m_ui w)) > 0)%Z.

(** A connection is selected by [populateBridges] when its master is this
    bridge, by UUID or by a non-empty name, and its slave type is the
    widget's type. *)
Definition is_slave_of (w : BridgeWidget) (connection : Connection) : Prop :=
  (NetworkManager.master connection = m_uuid w
   \/ (m_id w <> EmptyString /\ NetworkManager.master connection = m_id w))
  /\ NetworkManager.slaveType connection = type w.

(** The saved setting [saved] preserves the loaded one: name, aging time and
    STP flag are the loaded ones; so are the four STP parameters when STP is
    on, and when it is off they are those of a new setting. *)
Definition preserved (bridgeSetting saved : BridgeSetting) : Prop :=
  NetworkManager.interfaceName saved = NetworkManager.interfaceName bridgeSetting
  /\ NetworkManager.agingTime saved = NetworkManager.agingTime bridgeSetting
  /\ NetworkManager.stp saved = NetworkManager.stp bridgeSetting
  /\ (NetworkManager.stp bridgeSetting = true ->
      NetworkManager.priority saved = NetworkManager.priority bridgeSetting
      /\ NetworkManager.forwardDelay saved = NetworkManager.forwardDelay bridgeSetting
      /\ NetworkManager.helloTime saved = NetworkManager.helloTime bridgeSetting
      /\ NetworkManager.maxAge saved = NetworkManager.maxAge bridgeSetting)
  /\ (NetworkManager.stp bridgeSetting = false ->
      NetworkManager.priority saved = NetworkManager.priority BridgeSetting_new
      /\ NetworkManager.forwardDelay saved = NetworkManager.forwardDelay BridgeSetting_new
      /\ NetworkManager.helloTime saved = NetworkManager.helloTime BridgeSetting_new
      /\ NetworkManager.maxAge saved = NetworkManager.maxAge BridgeSetting_new).

(** The setting fits the form: the name is no longer than the line edit
    takes, the aging time is in the range of its spin box, and with STP on
    so are the four STP parameters. *)
Definition fits (w : BridgeWidget) (bridgeSetting : BridgeSetting) : Prop :=
  let u := m_ui w in
  (Z.of_nat (String.length (NetworkManager.interfaceName bridgeSetting))
   <= maxLength (ifaceName u))%Z
  /\ in_range (agingTime u) (to_int (NetworkManager.agingTime bridgeSetting))
  /\ (NetworkManager.stp bridgeSetting = true ->
      in_range (priority u) (to_int (NetworkManager.priority bridgeSetting))
      /\ in_range (forwardDelay u) (to_int (NetworkManager.forwardDelay bridgeSetting))
      /\ in_range (helloTime u) (to_int (NetworkManager.helloTime bridgeSetting))
      /\ in_range (maxAge u) (to_int (NetworkManager.maxAge bridgeSetting))).

(** The constructor: the slave list is filled, then the setting is loaded
    when there is one. *)
Definition create (masterUuid masterId widgetType : QString) (ui0 : Ui)
    (listConnections : list Connection) (s : option BridgeSetting) : BridgeWidget :=
  let w := {| m_uuid := masterUuid; m_id := masterId; type := widgetType; m_ui := ui0 |} in
  let w := populateBridges listConnections w in
  match s with
  | Some bridgeSetting => loadConfig bridgeSetting w
  | None => w
  end.

End Widget.

End Bridge.

(** ** The WireGuard widget: the advanced dialog, text changes and verdicts *)

Module WireGuardDialog.
Import Qt WireGuard.

Definition with_setting (s : option VpnSetting) (d : Private) : Private :=
  {| ui := ui d; palette := palette d; d_setting := s;
     addressValid := addressValid d; privateKeyValid := privateKeyValid d;
     publicKeyValid := publicKeyValid d; allowedIpsValid := allowedIpsValid d;
     endpointValid := endpointValid d |}.

(** The [accepted] handler that [showAdvanced] connects: [advData] is the
    advanced dialog's [setting()]; when it is not null its data replace the
    data of [d->setting]. *)
Definition advancedAccepted (advData : option VpnSetting) (d : Private) : Fault + Private :=
  match advData with
  | None => inr d
  | Some a =>
      match d_setting d with
      | None => inl NullPointer
      | Some st => inr (with_setting (Some (setData (NetworkManager.data a) st)) d)
      end
  end.

Section Verdicts.
Context {V : Validators}.

(** A run of text changes, each a line edit and its new text. *)
Definition changeTexts (changes : list (LineEdit * QString)) (d : Private) : Private :=
  foldl (fun d c => setText (fst c) (snd c) d) d changes.

(** What the validators say of the texts that are in the fields now. *)
Definition address_ok (d : Private) : bool :=
  let ip4 := text (ui d addressIPv4LineEdit) in
  let ip6 := text (ui d addressIPv6LineEdit) in
  (accepts ip4WithCidrValidator ip4 && accepts ip6WithCidrValidator ip6)
  || (accepts ip4WithCidrValidator ip4 && isEmpty ip6)
  || (isEmpty ip4 && accepts ip6WithCidrValidator ip6).

Definition privateKey_ok (d : Private) : bool :=
  accepts keyValidator (text (ui d privateKeyLineEdit)).

Definition publicKey_ok (d : Private) : bool :=
  accepts keyValidator (text (ui d publicKeyLineEdit)).

Definition allowedIps_ok (d : Private) : bool :=
  accepts allowedIPsValidator (text (ui d allowedIPsLineEdit)).

Definition endpoint_blank (d : Private) : bool :=
  isEmpty (text (ui d endpointAddressLineEdit))
  && isEmpty (text (ui d endpointPortLineEdit)).

Definition endpoint_address_ok (d : Private) : bool :=
  let addressValue := text (ui d endpointAddressLineEdit) in
  accepts fqdnValidator addressValue
  || accepts ipv4Validator addressValue
  || accepts ipv6Validator addressValue.

Definition endpoint_port_ok (d : Private) : bool :=
  negb (isEmpty (text (ui d endpointPortLineEdit))).

Definition endpoint_ok (d : Private) : bool :=
  endpoint_blank d || (endpoint_address_ok d && endpoint_port_ok d).

(** The palette [setBackground] gives for a verdict, and the verdict behind
    the background of each line edit. *)
Definition palette_for (result : bool) : Palette :=
  if result then normalPalette else warningPalette.

Definition field_ok (d : Private) (w : LineEdit) : bool :=
  match w with
  | addressIPv4LineEdit | addressIPv6LineEdit => address_ok d
  | privateKeyLineEdit => privateKey_ok d
  | publicKeyLineEdit => publicKey_ok d
  | allowedIPsLineEdit => allowedIps_ok d
  | endpointAddressLineEdit => endpoint_blank d || endpoint_address_ok d
  | endpointPortLineEdit => endpoint_blank d || endpoint_port_ok d
  end.

(** Flags and backgrounds agree with the texts in the fields. *)
Definition in_sync (d : Private) : Prop :=
  addressValid d = address_ok d
  /\ privateKeyValid d = privateKey_ok d
  /\ publicKeyValid d = publicKey_ok d
  /\ allowedIpsValid d = allowedIps_ok d
  /\ endpointValid d = endpoint_ok d
  /\ forall w, palette d w = palette_for (field_ok d w).

End Verdicts.

Section Stored.
Context {K : Constants}.

(** The data map of [setting()] after its five [setProperty] calls for the
    plain fields, and the text it writes for a filled endpoint address. *)
Definition plain_entries (d : Private) (data : gmap string string) : gmap string string :=
  setProperty
    (setProperty
       (setProperty
          (setProperty
             (setProperty data NM_WG_KEY_ADDR_IP4 (text (ui d addressIPv4LineEdit)))
             NM_WG_KEY_ADDR_IP6 (text (ui d addressIPv6LineEdit)))
          NM_WG_KEY_PRIVATE_KEY (text (ui d privateKeyLineEdit)))
       NM_WG_KEY_PUBLIC_KEY (text (ui d publicKeyLineEdit)))
    NM_WG_KEY_ALLOWED_IPS (text (ui d allowedIPsLineEdit)).

Definition endpoint_text (d : Private) : QString :=
  let address := text (ui d endpointAddressLineEdit) in
  let port := text (ui d endpointPortLineEdit) in
  if contains ":" address
  then "[" +:+ trimmed address +:+ "]:" +:+ trimmed port
  else trimmed address +:+ ":" +:+ trimmed port.



End Stored.

End WireGuardDialog.

(** ** The bridge widget: adding and deleting slaves *)

Module BridgeSlaves.
Import Qt Bridge.

(** [NetworkManager::ConnectionSettings], as [addBridge] builds it; [id] is
    the name of the connection. *)
Record ConnectionSettings := {
  id : QString;
  uuid : QString;
  master : QString;
  slaveType : QString;
  autoconnect : bool;
  connectionType : NetworkManager.ConnectionType }.

(** [new ConnectionSettings(connectionType)]: nothing is set but the type,
    and a connection connects automatically unless told otherwise. *)
Definition ConnectionSettings_new (t : NetworkManager.ConnectionType) : ConnectionSettings :=
  {| id := EmptyString; uuid := EmptyString; master := EmptyString;
     slaveType := EmptyString; autoconnect := true; connectionType := t |}.

Definition setUuid (v : QString) (c : ConnectionSettings) : ConnectionSettings :=
  {| id := id c; uuid := v; master := master c; slaveType := slaveType c;
     autoconnect := autoconnect c; connectionType := connectionType c |}.

Definition setMaster (v : QString) (c : ConnectionSettings) : ConnectionSettings :=
  {| id := id c; uuid := uuid c; master := v; slaveType := slaveType c;
     autoconnect := autoconnect c; connectionType := connectionType c |}.

Definition setSlaveType (v : QString) (c : ConnectionSettings) : ConnectionSettings :=
  {| id := id c; uuid := uuid c; master := master c; slaveType := v;
     autoconnect := autoconnect c; connectionType := connectionType c |}.

Definition setAutoconnect (v : bool) (c : ConnectionSettings) : ConnectionSettings :=
  {| id := id c; uuid := uuid c; master := master c; slaveType := slaveType c;
     autoconnect := v; connectionType := connectionType c |}.

Definition setId (v : QString) (c : ConnectionSettings) : ConnectionSettings :=
  {| id := v; uuid := uuid c; master := master c; slaveType := slaveType c;
     autoconnect := autoconnect c; connectionType := connectionType c |}.

(** The stored connection with these settings. *)
Definition stored (c : ConnectionSettings) : Connection :=
  {| NetworkManager.name := id c;
     NetworkManager.uuid := uuid c;
     NetworkManager.master := master c;
     NetworkManager.slaveType := slaveType c;
     NetworkManager.connectionType := connectionType c |}.

(** [addBridge]: the settings handed to the editor dialog; [connectionType]
    is the data of the chosen menu action and [newUuid] what
    [createNewUuid()] returned. *)
Definition addBridge (w : BridgeWidget) (connectionType : NetworkManager.ConnectionType)
    (newUuid : QString) : ConnectionSettings :=
  setAutoconnect false
    (setSlaveType (type w)
       (setMaster (m_uuid w)
          (setUuid newUuid (ConnectionSettings_new connectionType)))).

(** The reply to [NetworkManager::addConnection]: the path of the new
    connection, or an error. *)
Inductive AddReply :=
| ReplyPath (path : QString)
| ReplyError (message : QString).

Section Handlers.
Variable slaveLabel : QString -> NetworkManager.ConnectionType -> QString.
(** [NetworkManager::findConnection] and [findConnectionByUuid]. *)
Variable findConnection : QString -> option Connection.
Variable findConnectionByUuid : QString -> option Connection.

Definition bridgeAddComplete (reply : AddReply) (w : BridgeWidget) : BridgeWidget :=
  match reply with
  | ReplyPath path =>
      match findConnection path with
      | Some connection =>
          if bool_decide (NetworkManager.master connection = m_uuid w)
          then with_ui
                 (with_bridges (bridges (m_ui w) ++ [slaveItem slaveLabel connection])
                    (m_ui w))
                 w
          else w
      | None => w
      end
  | ReplyError _ => w
  end.

(** [deleteBridge]: [currentItem] is the row of the current item, if there
    is one, and [answerYes] the user's answer to the question about a
    connection.  Returned with the widget is the connection that was
    removed, if one was. *)
Definition deleteBridge (answerYes : Connection -> bool) (currentItem : option nat)
    (w : BridgeWidget) : BridgeWidget * option Connection :=
  match currentItem with
  | None => (w, None)
  | Some row =>
      match bridges (m_ui w) !! row with
      | None => (w, None)
      | Some item =>
          match findConnectionByUuid (userData item) with
          | Some connection =>
              if answerYes connection
              then (with_ui (with_bridges (delete row (bridges (m_ui w))) (m_ui w)) w,
                    Some connection)
              else (w, None)
          | None => (w, None)
          end
      end
  end.

End Handlers.

(** The form holds what its widgets can hold: the name is within the line
    edit's length, and each spin box has an [int] range with its value
    inside. *)
Definition box_wf (b : QSpinBox) : Prop :=
  is_int (minimum b) /\ is_int (maximum b) /\ in_range b (value b).

Definition form_wf (u : Ui) : Prop :=
  (Z.of_nat (String.length (text (ifaceName u))) <= maxLength (ifaceName u))%Z
  /\ box_wf (agingTime u) /\ box_wf (priority u) /\ box_wf (forwardDelay u)
  /\ box_wf (helloTime u) /\ box_wf (maxAge u).

End BridgeSlaves.

(** ** Concrete inputs

    Values at which the statements below are instantiated and evaluated. *)

Module Sample.
Import Qt.

(** A validator that accepts the listed texts and leaves every other text
    intermediate. *)
Definition accept_only (l : list QString) : QValidator :=
  {| validate := fun s => if bool_decide (s ∈ l) then Acceptable else Intermediate |}.

Definition validators : WireGuard.Validators :=
  {| WireGuard.ip4WithCidrValidator := accept_only ["10.0.0.2/24"];
     WireGuard.ip6WithCidrValidator := accept_only ["fd00::2/64"];
     WireGuard.keyValidator :=
       accept_only ["AAAAAAAAAAAAAAAAAAAAAAAAAAAAAAAAAAAAAAAAAAA="];
     WireGuard.allowedIPsValidator := accept_only ["0.0.0.0/0"];
     WireGuard.fqdnValidator := accept_only ["vpn.example.com"];
     WireGuard.ipv4Validator := accept_only ["192.0.2.1"];
     WireGuard.ipv6Validator := accept_only ["2001:db8::1"] |}.

Definition constants : WireGuard.Constants :=
  {| WireGuard.NM_DBUS_SERVICE_WIREGUARD := "org.freedesktop.NetworkManager.wireguard";
     WireGuard.NM_WG_KEY_ADDR_IP4 := "local-ip4";
     WireGuard.NM_WG_KEY_ADDR_IP6 := "local-ip6";
     WireGuard.NM_WG_KEY_PRIVATE_KEY := "local-private-key";
     WireGuard.NM_WG_KEY_PUBLIC_KEY := "peer-public-key";
     WireGuard.NM_WG_KEY_ALLOWED_IPS := "peer-allowed-ips";
     WireGuard.NM_WG_KEY_ENDPOINT := "peer-endpoint" |}.

(** Line edits as Qt creates them: empty, at most 32767 characters. *)
Definition emptyLineEdit : QLineEdit := {| text := EmptyString; maxLength := 32767 |}.

Definition lineEdit (t : QString) : QLineEdit := {| text := t; maxLength := 32767 |}.

(** A stored WireGuard setting with an IPv4 endpoint, and the same setting
    without the endpoint key. *)
Definition storedData : gmap string string :=
  <["local-ip4" := "10.0.0.2/24"]>
    (<["local-private-key" := "AAAAAAAAAAAAAAAAAAAAAAAAAAAAAAAAAAAAAAAAAAA="]>
       (<["peer-public-key" := "AAAAAAAAAAAAAAAAAAAAAAAAAAAAAAAAAAAAAAAAAAA="]>
          (<["peer-allowed-ips" := "0.0.0.0/0"]>
             (<["local-listen-port" := "51820"]> ∅)))).

Definition vpnSetting : NetworkManager.VpnSetting :=
  {| NetworkManager.isNull := false;
     NetworkManager.serviceType := "org.freedesktop.NetworkManager.wireguard";
     NetworkManager.data := <["peer-endpoint" := "192.0.2.1:51820"]> storedData |}.

Definition vpnSettingNoEndpoint : NetworkManager.VpnSetting :=
  {| NetworkManager.isNull := false;
     NetworkManager.serviceType := "org.freedesktop.NetworkManager.wireguard";
     NetworkManager.data := storedData |}.

(** The same setting with an IPv6 endpoint stored without brackets. *)
Definition vpnSettingBareIPv6 : NetworkManager.VpnSetting :=
  {| NetworkManager.isNull := false;
     NetworkManager.serviceType := "org.freedesktop.NetworkManager.wireguard";
     NetworkManager.data := <["peer-endpoint" := "2001:db8::1:51820"]> storedData |}.

(** A WireGuard widget over [vpnSetting] whose fields hold the given texts. *)
Definition wireGuard (ip4 ip6 privateKey publicKey allowedIPs address port : QString)
  : WireGuard.Private :=
  WireGuard.Private_new
    (fun w =>
       lineEdit
         match w with
         | WireGuard.addressIPv4LineEdit => ip4
         | WireGuard.addressIPv6LineEdit => ip6
         | WireGuard.privateKeyLineEdit => privateKey
         | WireGuard.publicKeyLineEdit => publicKey
         | WireGuard.allowedIPsLineEdit => allowedIPs
         | WireGuard.endpointAddressLineEdit => address
         | WireGuard.endpointPortLineEdit => port
         end)
    (Some vpnSetting).

(** A bridge form whose spin boxes run from 0 to 999999999, and a widget
    over it. *)
Definition spinBox (v : Z) : QSpinBox :=
  {| minimum := 0; maximum := 999999999; value := v |}.

Definition bridgeUi : Bridge.Ui :=
  {| Bridge.ifaceName := emptyLineEdit;
     Bridge.agingTime := spinBox 300;
     Bridge.stpGroup := true;
     Bridge.priority := spinBox 128;
     Bridge.forwardDelay := spinBox 15;
     Bridge.helloTime := spinBox 2;
     Bridge.maxAge := spinBox 20;
     Bridge.bridges := [] |}.

Definition bridgeWidget : Bridge.BridgeWidget :=
  {| Bridge.m_uuid := "6d1f2c0e-8a51-4c0b-9d3e-0f2b7a1c4e55";
     Bridge.m_id := "br0";
     Bridge.type := "bridge";
     Bridge.m_ui := bridgeUi |}.

Definition bridgeDefaults : NetworkManager.BridgeSetting :=
  {| NetworkManager.interfaceName := EmptyString;
     NetworkManager.agingTime := 300;
     NetworkManager.stp := true;
     NetworkManager.priority := 128;
     NetworkManager.forwardDelay := 15;
     NetworkManager.helloTime := 2;
     NetworkManager.maxAge := 20 |}.

(** A bridge setting inside the ranges of [bridgeUi], and one whose aging
    time is the largest [int]. *)
Definition bridgeSetting : NetworkManager.BridgeSetting :=
  {| NetworkManager.interfaceName := "br0";
     NetworkManager.agingTime := 600;
     NetworkManager.stp := true;
     NetworkManager.priority := 32768;
     NetworkManager.forwardDelay := 4;
     NetworkManager.helloTime := 1;
     NetworkManager.maxAge := 6 |}.

Definition bridgeSettingLongAging : NetworkManager.BridgeSetting :=
  NetworkManager.setAgingTime 2147483647 bridgeSetting.

(** Stored connections: two slaves of [bridgeWidget] (one by UUID, one by
    name), a slave of another type, and a connection without master. *)
Definition slaveByUuid : NetworkManager.Connection :=
  {| NetworkManager.name := "eth-slave";
     NetworkManager.uuid := "11111111-aaaa";
     NetworkManager.master := "6d1f2c0e-8a51-4c0b-9d3e-0f2b7a1c4e55";
     NetworkManager.slaveType := "bridge";
     NetworkManager.connectionType := NetworkManager.Wired |}.

Definition bondSlave : NetworkManager.Connection :=
  {| NetworkManager.name := "bond-slave";
     NetworkManager.uuid := "22222222-bbbb";
     NetworkManager.master := "br0";
     NetworkManager.slaveType := "bond";
     NetworkManager.connectionType := NetworkManager.Wired |}.

Definition slaveByName : NetworkManager.Connection :=
  {| NetworkManager.name := "wifi-slave";
     NetworkManager.uuid := "33333333-cccc";
     NetworkManager.master := "br0";
     NetworkManager.slaveType := "bridge";
     NetworkManager.connectionType := NetworkManager.Wireless |}.

Definition otherConnection : NetworkManager.Connection :=
  {| NetworkManager.name := "home";
     NetworkManager.uuid := "44444444-dddd";
     NetworkManager.master := "";
     NetworkManager.slaveType := "";
     NetworkManager.connectionType := NetworkManager.Wireless |}.

Definition slaveLabel (name : QString) (t : NetworkManager.ConnectionType) : QString :=
  name +:+ " (" +:+
  match t with
  | NetworkManager.Wired => "Wired Ethernet"
  | NetworkManager.VlanConnection => "VLAN"
  | NetworkManager.Wireless => "Wi-Fi"
  | NetworkManager.OtherConnection _ => "Unknown connection type"
  end +:+ ")".

End Sample.

(** * Properties *)

(** ** Strings *)

Module QtFacts.
Import Qt.

Lemma isEmpty_true (s : QString) : isEmpty s = true <-> s = EmptyString.
Proof. destruct s; simpl; split; congruence. Qed.

Lemma isEmpty_false (s : QString) : isEmpty s = false <-> s <> EmptyString.
Proof. destruct s; simpl; split; congruence. Qed.

Lemma left_all (n : nat) (s : QString) : String.length s <= n -> left n s = s.
Proof.
  revert s; induction n as [|n IH]; intros [|a s]; simpl; intros Hn; try lia; auto.
  rewrite IH; [reflexivity | lia].
Qed.

Lemma setText_text (t : QString) (e : QLineEdit) :
  (Z.of_nat (String.length t) <= maxLength e)%Z -> text (setText t e) = t.
Proof.
  intros Hlen. unfold setText; simpl.
  destruct (isEmpty t); [reflexivity | apply left_all; lia].
Qed.

(** One turn of the split loop. *)
Lemma split_loop_eq (c : ascii) (sep s : QString) :
  split_loop c sep s =
  match indexOf (String c sep) s with
  | None => [s]
  | Some i => left i s :: split_loop c sep (mid (i + String.length (String c sep)) s)
  end.
Proof.
  rewrite split_loop_equation_1.
  destruct (inspect (indexOf (String c sep) s)) as [[i|] Hi].
  - rewrite split_loop_clause_1_equation_1, Hi. reflexivity.
  - rewrite split_loop_clause_1_equation_2, Hi. reflexivity.
Qed.

Lemma split_loop_length (c : ascii) (sep s : QString) :
  1 <= length (split_loop c sep s).
Proof.
  rewrite split_loop_eq. destruct (indexOf _ s); simpl; lia.
Qed.

(** Without the separator the text comes back as the only part; with it
    there are at least two parts. *)
Lemma split_without (c : ascii) (sep s : QString) :
  contains (String c sep) s = false -> split (String c sep) s = [s].
Proof.
  unfold contains, split. intros Hc. rewrite split_loop_eq.
  destruct (indexOf _ s); [discriminate | reflexivity].
Qed.

Lemma split_with (c : ascii) (sep s : QString) :
  contains (String c sep) s = true -> 2 <= length (split (String c sep) s).
Proof.
  unfold contains, split. intros Hc. rewrite split_loop_eq.
  destruct (indexOf _ s) as [i|]; [|discriminate]. simpl.
  pose proof (split_loop_length c sep (mid (i + S (String.length sep)) s)). lia.
Qed.

Lemma split_second_iff (c : ascii) (sep s : QString) :
  1 < length (split (String c sep) s) <-> contains (String c sep) s = true.
Proof.
  split.
  - destruct (contains (String c sep) s) eqn:Hc; [reflexivity|].
    rewrite split_without by assumption. simpl. lia.
  - intros Hc. apply split_with in Hc. lia.
Qed.

(** [indexOf] finds an occurrence exactly when there is one. *)
Lemma indexOf_eq (sep s : QString) :
  indexOf sep s =
  if String.prefix sep s then Some 0
  else match s with
       | EmptyString => None
       | String _ s' => S <$> indexOf sep s'
       end.
Proof. destruct s; reflexivity. Qed.

Lemma append_cons (a : ascii) (s t : QString) :
  String a s +:+ t = String a (s +:+ t).
Proof. reflexivity. Qed.

Lemma prefix_iff (p s : QString) :
  String.prefix p s = true <-> exists t, s = p +:+ t.
Proof.
  revert s; induction p as [|a p IH]; intros s; simpl.
  - split; [intros _; exists s; reflexivity | intros _; destruct s; reflexivity].
  - destruct s as [|b s]; [split; [discriminate | intros [t Ht]; discriminate]|].
    simpl. destruct (Ascii.ascii_dec a b) as [->|Hab].
    + rewrite IH. split; intros [t Ht]; exists t; rewrite append_cons in *; congruence.
    + split; [discriminate | intros [t Ht]; rewrite append_cons in Ht; congruence].
Qed.

Lemma contains_iff (sep s : QString) :
  contains sep s = true <-> exists pre post, s = pre +:+ sep +:+ post.
Proof.
  unfold contains. split.
  - induction s as [|a s IH]; rewrite indexOf_eq;
      destruct (String.prefix sep _) eqn:Hp.
    + intros _. apply prefix_iff in Hp as [t Ht]. exists EmptyString, t. exact Ht.
    + discriminate.
    + intros _. apply prefix_iff in Hp as [t Ht]. exists EmptyString, t. exact Ht.
    + destruct (indexOf sep s); [|discriminate]. intros _.
      destruct (IH eq_refl) as (pre & post & ->). exists (String a pre), post. reflexivity.
  - intros (pre & post & ->). induction pre as [|a pre IH]; rewrite indexOf_eq.
    + replace (String.prefix sep (EmptyString +:+ sep +:+ post)) with true; [reflexivity|].
      symmetry. apply prefix_iff. exists post. reflexivity.
    + destruct (String.prefix sep _); [reflexivity|].
      rewrite append_cons. destruct (indexOf sep (pre +:+ sep +:+ post)); [reflexivity | discriminate].
Qed.

Lemma append_assoc (a b c : QString) : (a +:+ b) +:+ c = a +:+ b +:+ c.
Proof.
  induction a as [|x a IH]; [reflexivity | rewrite !append_cons, IH; reflexivity].
Qed.

(** A text with "]:" in it has ":" in it. *)
Lemma contains_bracket_colon (s : QString) :
  contains "]:" s = true -> contains ":" s = true.
Proof.
  rewrite !contains_iff. intros (pre & post & ->).
  exists (pre +:+ "]"), post. rewrite append_assoc. reflexivity.
Qed.

Lemma contains_empty (c : ascii) (sep : QString) :
  contains (String c sep) EmptyString = false.
Proof. reflexivity. Qed.

Example split_ipv4_endpoint : split ":" "192.0.2.1:51820" = ["192.0.2.1"; "51820"].
Proof. reflexivity. Qed.

Example split_ipv6_endpoint : split "]:" "[2001:db8::1]:51820" = ["[2001:db8::1"; "51820"].
Proof. reflexivity. Qed.

Example split_no_port : split ":" "vpn.example.com" = ["vpn.example.com"].
Proof. reflexivity. Qed.

Example split_empty : split ":" "" = [""].
Proof. reflexivity. Qed.

Example remove_bracket : remove "["%char "[2001:db8::1" = "2001:db8::1".
Proof. reflexivity. Qed.

Example trimmed_blanks : trimmed "  vpn.example.com " = "vpn.example.com".
Proof. reflexivity. Qed.

End QtFacts.

(** ** The editor's main *)

Module EditorFacts.
Import Qt Editor.

Lemma main_with_argument (first : QString) (rest : list QString) :
  main {| positional := first :: rest |} = [NewConnectionEditor; EditConnection first; Exec].
Proof.
  unfold main, count, arg. simpl positional.
  rewrite bool_decide_eq_true_2; [reflexivity | simpl length; lia].
Qed.

Lemma main_without_argument :
  main {| positional := [] |} = [NewConnectionEditor; Show; Exec].
Proof. reflexivity. Qed.

(** Membership in an explicit list of calls. *)
Ltac in_calls :=
  rewrite ?elem_of_cons, ?elem_of_nil; intuition congruence.

(** C4. [main] takes an optional positional UUID.  With at least one
    positional argument it calls [editConnection] with the first one, with
    no other UUID, and never [show]; with no positional argument it calls
    [show] and never [editConnection]. *)
Theorem main_edits_or_shows (args : KCmdLineArgs) :
  (forall first rest, positional args = first :: rest ->
     EditConnection first ∈ main args
     /\ (forall uuid, EditConnection uuid ∈ main args -> uuid = first)
     /\ Show ∉ main args)
  /\ (positional args = [] ->
      Show ∈ main args /\ forall uuid, EditConnection uuid ∉ main args).
Proof.
  destruct args as [l]. simpl positional. split.
  - intros first rest ->. rewrite main_with_argument. repeat split.
    + in_calls.
    + intros uuid. in_calls.
    + in_calls.
  - intros ->. rewrite main_without_argument. split.
    + in_calls.
    + intros uuid. in_calls.
Qed.

Lemma main_edits_or_shows_witness :
  (EditConnection "6d1f2c0e" ∈ main {| positional := ["6d1f2c0e"; "extra"] |}
   /\ (forall uuid,
         EditConnection uuid ∈ main {| positional := ["6d1f2c0e"; "extra"] |} ->
         uuid = "6d1f2c0e")
   /\ Show ∉ main {| positional := ["6d1f2c0e"; "extra"] |}).
Proof.
  exact (proj1 (main_edits_or_shows {| positional := ["6d1f2c0e"; "extra"] |})
           "6d1f2c0e" ["extra"] eq_refl).
Defined.

End EditorFacts.

(** ** The WireGuard widget: validity flags *)

Module WireGuardFacts.
Import Qt WireGuard QtFacts.

Lemma accepts_true (v : QValidator) (t : QString) :
  accepts v t = true <-> validate v t = Acceptable.
Proof. unfold accepts. apply bool_decide_eq_true. Qed.

Lemma accepts_false (v : QValidator) (t : QString) :
  accepts v t = false <-> validate v t <> Acceptable.
Proof. unfold accepts. apply bool_decide_eq_false. Qed.

(** C1. [isValid] is true exactly when the address, private-key, public-key,
    allowed-IPs and endpoint flags are all true; one false flag makes it
    false. *)
Theorem isValid_all_flags (d : Private) :
  (isValid d = true <->
     addressValid d = true /\ privateKeyValid d = true /\ publicKeyValid d = true
     /\ allowedIpsValid d = true /\ endpointValid d = true)
  /\ (addressValid d = false \/ privateKeyValid d = false \/ publicKeyValid d = false
      \/ allowedIpsValid d = false \/ endpointValid d = false ->
      isValid d = false).
Proof.
  unfold isValid.
  destruct (addressValid d), (privateKeyValid d), (publicKeyValid d),
    (allowedIpsValid d), (endpointValid d); simpl; intuition congruence.
Qed.

Section Checks.
Context {V : Validators}.

Lemma checkEndpointValid_flag (d : Private) :
  endpointValid (checkEndpointValid d) =
  let addressValue := text (ui d endpointAddressLineEdit) in
  let portString := text (ui d endpointPortLineEdit) in
  (isEmpty addressValue && isEmpty portString)
  || ((accepts fqdnValidator addressValue || accepts ipv4Validator addressValue
       || accepts ipv6Validator addressValue)
      && negb (isEmpty portString)).
Proof. reflexivity. Qed.

Lemma checkAddressValid_flag (d : Private) :
  addressValid (checkAddressValid d) =
  let ip4 := text (ui d addressIPv4LineEdit) in
  let ip6 := text (ui d addressIPv6LineEdit) in
  (accepts ip4WithCidrValidator ip4 && accepts ip6WithCidrValidator ip6)
  || (accepts ip4WithCidrValidator ip4 && negb (negb (isEmpty ip6)))
  || (negb (negb (isEmpty ip4)) && accepts ip6WithCidrValidator ip6).
Proof. reflexivity. Qed.

(** C2. After [checkEndpointValid] the endpoint flag is true in exactly two
    cases: address and port are both empty, or the address is accepted by the
    FQDN, IPv4 or IPv6 validator and the port is not empty.  Otherwise it is
    false: an address without a port, a port with an address that is not
    accepted, and (validators rejecting the empty text) a port without an
    address. *)
Theorem checkEndpointValid_cases (d : Private) :
  let addressValue := text (ui d endpointAddressLineEdit) in
  let portString := text (ui d endpointPortLineEdit) in
  (endpointValid (checkEndpointValid d) = true <->
     (addressValue = EmptyString /\ portString = EmptyString)
     \/ (endpoint_address_accepted addressValue /\ portString <> EmptyString))
  /\ (addressValue <> EmptyString -> portString = EmptyString ->
      endpointValid (checkEndpointValid d) = false)
  /\ (portString <> EmptyString -> ~ endpoint_address_accepted addressValue ->
      endpointValid (checkEndpointValid d) = false)
  /\ (rejects_empty fqdnValidator -> rejects_empty ipv4Validator ->
      rejects_empty ipv6Validator ->
      portString <> EmptyString -> addressValue = EmptyString ->
      endpointValid (checkEndpointValid d) = false).
Proof.
  intros addressValue portString. rewrite checkEndpointValid_flag.
  unfold endpoint_address_accepted, rejects_empty. cbv zeta.
  fold addressValue portString.
  rewrite <- !accepts_false, <- !accepts_true.
  pose proof (isEmpty_true addressValue) as Ha.
  pose proof (isEmpty_true portString) as Hp.
  destruct (isEmpty addressValue) eqn:Ea, (isEmpty portString) eqn:Ep;
    destruct (accepts fqdnValidator addressValue) eqn:E1,
             (accepts ipv4Validator addressValue) eqn:E2,
             (accepts ipv6Validator addressValue) eqn:E3;
    simpl; repeat split; try tauto; try congruence;
    try (intros; exfalso; intuition congruence);
    try (intuition congruence).
  all: intros R1 R2 R3 _ Hempty; rewrite Hempty in *; congruence.
Qed.

(** C3. After [checkAddressValid] the address flag is true exactly when
    both fields are accepted, or the IPv4 field is accepted and the IPv6
    field is empty, or the IPv4 field is empty and the IPv6 field is
    accepted.  A field that is filled in and not accepted makes the flag
    false, and so do two empty fields (validators rejecting the empty
    text). *)
Theorem checkAddressValid_cases (d : Private) :
  let ip4 := text (ui d addressIPv4LineEdit) in
  let ip6 := text (ui d addressIPv6LineEdit) in
  let ip4ok := validate ip4WithCidrValidator ip4 = Acceptable in
  let ip6ok := validate ip6WithCidrValidator ip6 = Acceptable in
  (addressValid (checkAddressValid d) = true <->
     (ip4ok /\ ip6ok) \/ (ip4ok /\ ip6 = EmptyString) \/ (ip4 = EmptyString /\ ip6ok))
  /\ (rejects_empty ip4WithCidrValidator -> rejects_empty ip6WithCidrValidator ->
      ip4 = EmptyString -> ip6 = EmptyString ->
      addressValid (checkAddressValid d) = false)
  /\ (ip4 <> EmptyString -> ~ ip4ok -> addressValid (checkAddressValid d) = false)
  /\ (ip6 <> EmptyString -> ~ ip6ok -> addressValid (checkAddressValid d) = false).
Proof.
  intros ip4 ip6 ip4ok ip6ok. rewrite checkAddressValid_flag.
  unfold rejects_empty. subst ip4ok ip6ok. cbv zeta. fold ip4 ip6.
  rewrite <- !accepts_false, <- !accepts_true.
  pose proof (isEmpty_true ip4) as H4.
  pose proof (isEmpty_true ip6) as H6.
  destruct (isEmpty ip4) eqn:E4, (isEmpty ip6) eqn:E6;
    destruct (accepts ip4WithCidrValidator ip4) eqn:A4,
             (accepts ip6WithCidrValidator ip6) eqn:A6;
    simpl; repeat split; try tauto; try congruence;
    try (intuition congruence).
  all: intros R4 R6 Z4 Z6; rewrite ?Z4, ?Z6 in *; congruence.
Qed.

End Checks.

Lemma checkEndpointValid_cases_witness :
  endpointValid
    (checkEndpointValid (V := Sample.validators)
       (Sample.wireGuard "10.0.0.2/24" "" "" "" "" "" "51820")) = false.
Proof.
  destruct (checkEndpointValid_cases (V := Sample.validators)
              (Sample.wireGuard "10.0.0.2/24" "" "" "" "" "" "51820"))
    as (_ & _ & _ & Hport_only).
  apply Hport_only; solve [ vm_compute; discriminate | reflexivity ].
Defined.

Lemma checkAddressValid_cases_witness :
  addressValid
    (checkAddressValid (V := Sample.validators)
       (Sample.wireGuard "" "" "" "" "" "" "")) = false.
Proof.
  destruct (checkAddressValid_cases (V := Sample.validators)
              (Sample.wireGuard "" "" "" "" "" "" ""))
    as (_ & Hboth_empty & _).
  apply Hboth_empty; solve [ vm_compute; discriminate | reflexivity ].
Defined.

Example endpoint_fqdn_with_port :
  endpointValid
    (checkEndpointValid (V := Sample.validators)
       (Sample.wireGuard "" "" "" "" "" "vpn.example.com" "51820")) = true.
Proof. reflexivity. Qed.

Example endpoint_address_without_port :
  endpointValid
    (checkEndpointValid (V := Sample.validators)
       (Sample.wireGuard "" "" "" "" "" "vpn.example.com" "")) = false.
Proof. reflexivity. Qed.

Example endpoint_blank :
  endpointValid
    (checkEndpointValid (V := Sample.validators)
       (Sample.wireGuard "" "" "" "" "" "" "")) = true.
Proof. reflexivity. Qed.

Example address_ip4_only :
  addressValid
    (checkAddressValid (V := Sample.validators)
       (Sample.wireGuard "10.0.0.2/24" "" "" "" "" "" "")) = true.
Proof. reflexivity. Qed.

Example address_ip6_not_accepted :
  addressValid
    (checkAddressValid (V := Sample.validators)
       (Sample.wireGuard "10.0.0.2/24" "fd00::" "" "" "" "" "")) = false.
Proof. reflexivity. Qed.

(** ** The WireGuard widget: loading and saving the data map *)

Section Config.
Context {V : Validators} {K : Constants}.

(** The separator [loadConfig] splits the stored endpoint on. *)
Lemma endpointList_eq (dataMap : gmap string string) :
  let stored := value_of dataMap NM_WG_KEY_ENDPOINT in
  endpointList dataMap = split (if contains "]:" stored then "]:" else ":") stored.
Proof. unfold endpointList. cbv zeta. destruct (contains "]:" _); reflexivity. Qed.

(** [loadConfig] fails on the second part of a one-part list and succeeds
    when there are two parts. *)
Lemma loadConfig_one_part (d : Private) (st : VpnSetting) (e0 : QString) :
  d_setting d = Some st ->
  endpointList (NetworkManager.data st) = [e0] ->
  loadConfig d = inl (IndexOutOfRange 1 1).
Proof. intros Hst He. unfold loadConfig. rewrite Hst, He. reflexivity. Qed.

Lemma loadConfig_two_parts (d : Private) (st : VpnSetting) :
  d_setting d = Some st ->
  1 < length (endpointList (NetworkManager.data st)) ->
  exists d', loadConfig d = inr d'.
Proof.
  intros Hst Hlen. unfold loadConfig. rewrite Hst.
  destruct (endpointList (NetworkManager.data st)) as [|e0 [|e1 l]];
    simpl in Hlen; try lia.
  eexists. reflexivity.
Qed.

(** C9. [loadConfig] splits the stored endpoint on "]:" when the text has
    it and on ":" otherwise, and then reads element 1 of the list.  The list
    has an element 1 exactly when the stored endpoint contains the chosen
    separator, and only then does [loadConfig] return; when the endpoint is
    empty or has no ':' (as when the key is missing from the data map) the
    read of element 1 is out of bounds. *)
Theorem loadConfig_endpoint_index (d : Private) (st : VpnSetting) :
  d_setting d = Some st ->
  let stored := value_of (NetworkManager.data st) NM_WG_KEY_ENDPOINT in
  let sep := if contains "]:" stored then "]:" else ":" in
  endpointList (NetworkManager.data st) = split sep stored
  /\ (1 < length (endpointList (NetworkManager.data st)) <-> contains sep stored = true)
  /\ ((exists d', loadConfig d = inr d') <-> contains sep stored = true)
  /\ (stored = EmptyString \/ contains ":" stored = false ->
      loadConfig d = inl (IndexOutOfRange 1 1))
  /\ (NetworkManager.data st !! NM_WG_KEY_ENDPOINT = None ->
      loadConfig d = inl (IndexOutOfRange 1 1)).
Proof.
  intros Hst stored sep.
  pose proof (endpointList_eq (NetworkManager.data st)) as Hlist.
  cbv zeta in Hlist. fold stored in Hlist. fold sep in Hlist.
  assert (Hsep : exists c sep', sep = String c sep').
  { unfold sep. destruct (contains "]:" stored); eauto. }
  destruct Hsep as (c & sep' & Hsep).
  assert (Hsecond : 1 < length (endpointList (NetworkManager.data st))
                    <-> contains sep stored = true).
  { rewrite Hlist, Hsep. apply split_second_iff. }
  assert (Hfault : contains sep stored = false ->
                   loadConfig d = inl (IndexOutOfRange 1 1)).
  { intros Hc. apply (loadConfig_one_part d st stored Hst).
    rewrite Hlist, Hsep. apply split_without. rewrite <- Hsep. exact Hc. }
  assert (Hcolon : contains ":" stored = false -> contains sep stored = false).
  { intros Hc. unfold sep. destruct (contains "]:" stored) eqn:Hb; [|exact Hc].
    apply contains_bracket_colon in Hb. congruence. }
  repeat split.
  - exact Hlist.
  - apply Hsecond.
  - apply Hsecond.
  - intros [d' Hd']. destruct (contains sep stored) eqn:Hc; [reflexivity|].
    rewrite (Hfault eq_refl) in Hd'. discriminate.
  - intros Hc. apply (loadConfig_two_parts d st Hst). apply Hsecond, Hc.
  - intros [Hempty | Hc]; apply Hfault, Hcolon; [rewrite Hempty; reflexivity | exact Hc].
  - intros Hnone. apply Hfault, Hcolon. unfold stored, value_of. rewrite Hnone.
    reflexivity.
Qed.

End Config.

Lemma loadConfig_endpoint_index_witness :
  loadConfig (V := Sample.validators) (K := Sample.constants)
    (Private_new (fun _ => Sample.emptyLineEdit) (Some Sample.vpnSettingNoEndpoint))
  = inl (IndexOutOfRange 1 1).
Proof.
  destruct (loadConfig_endpoint_index (V := Sample.validators) (K := Sample.constants)
              (Private_new (fun _ => Sample.emptyLineEdit) (Some Sample.vpnSettingNoEndpoint))
              Sample.vpnSettingNoEndpoint eq_refl)
    as (_ & _ & _ & _ & Hmissing).
  apply Hmissing. vm_compute. reflexivity.
Defined.

Example loadConfig_ipv4_endpoint :
  bind (loadConfig (V := Sample.validators) (K := Sample.constants)
          (Private_new (fun _ => Sample.emptyLineEdit) (Some Sample.vpnSetting)))
       (fun d => inr (text (ui d endpointAddressLineEdit),
                      text (ui d endpointPortLineEdit),
                      isValid d))
  = inr ("192.0.2.1", "51820", true).
Proof. vm_compute. reflexivity. Qed.

Section Saving.
Context {K : Constants}.

(** What [setProperty] leaves under each key. *)
Lemma setProperty_lookup (data : gmap string string) (key value k : QString) :
  setProperty data key value !! k =
  if decide (key = k)
  then (if isEmpty value then None else Some value)
  else data !! k.
Proof.
  unfold setProperty. destruct (isEmpty value); simpl.
  - rewrite lookup_delete. destruct (decide (key = k)); reflexivity.
  - rewrite lookup_insert. destruct (decide (key = k)); reflexivity.
Qed.

Lemma setProperty_same (data : gmap string string) (key value : QString) :
  setProperty data key value !! key = if isEmpty value then None else Some value.
Proof. rewrite setProperty_lookup. destruct (decide (key = key)); congruence. Qed.

Lemma setProperty_other (data : gmap string string) (key value k : QString) :
  key <> k -> setProperty data key value !! k = data !! k.
Proof. intros Hk. rewrite setProperty_lookup. destruct (decide (key = k)); congruence. Qed.

(** The data map [setting()] hands to [setData]. *)
Lemma setting_data (d : Private) (st : VpnSetting) :
  d_setting d = Some st ->
  exists r endpoint,
    setting d = inr r
    /\ (NetworkManager.data r = endpoint \/
        exists value, NetworkManager.data r = setProperty endpoint NM_WG_KEY_ENDPOINT value)
    /\ endpoint =
       setProperty
         (setProperty
            (setProperty
               (setProperty
                  (setProperty (NetworkManager.data st)
                     NM_WG_KEY_ADDR_IP4 (text (ui d addressIPv4LineEdit)))
                  NM_WG_KEY_ADDR_IP6 (text (ui d addressIPv6LineEdit)))
               NM_WG_KEY_PRIVATE_KEY (text (ui d privateKeyLineEdit)))
            NM_WG_KEY_PUBLIC_KEY (text (ui d publicKeyLineEdit)))
         NM_WG_KEY_ALLOWED_IPS (text (ui d allowedIPsLineEdit)).
Proof.
  intros Hst. unfold setting. rewrite Hst. unfold displayText.
  destruct (isEmpty (text (ui d endpointAddressLineEdit))); simpl negb; cbv iota.
  - eexists _, _. split; [reflexivity|]. split; [left; reflexivity | reflexivity].
  - destruct (contains ":" (text (ui d endpointAddressLineEdit)));
      eexists _, _; (split; [reflexivity|]); (split; [right; eexists; reflexivity | reflexivity]).
Qed.

Ltac distinct_keys Hdistinct :=
  unfold data_keys in Hdistinct;
  repeat match goal with
         | Hd : NoDup (_ :: _) |- _ => apply NoDup_cons in Hd as [? Hd]
         end;
  repeat match goal with
         | Hn : _ ∉ _ :: _ |- _ => apply not_elem_of_cons in Hn as [? Hn]
         end.

(** C10. For each of the five keys (IPv4 address, IPv6 address, private
    key, public key, allowed IPs), the data map of [setting()] holds the
    field's text under the key when the text is not empty and has no entry
    for the key when it is empty; every entry under a key other than these
    five and the endpoint key is the stored one. *)
Theorem setting_data_entries (d : Private) (st : VpnSetting) :
  NoDup data_keys ->
  d_setting d = Some st ->
  exists r,
    setting d = inr r
    /\ (forall w key, (w, key) ∈ data_fields ->
          (text (ui d w) <> EmptyString ->
             NetworkManager.data r !! key = Some (text (ui d w)))
          /\ (text (ui d w) = EmptyString -> NetworkManager.data r !! key = None))
    /\ (forall key, key ∉ data_keys ->
          NetworkManager.data r !! key = NetworkManager.data st !! key).
Proof.
  intros Hdistinct Hst.
  destruct (setting_data d st Hst) as (r & endpoint & Hr & Hdata & Hendpoint).
  exists r. split; [exact Hr|].
  assert (Hlookup : forall key, key <> NM_WG_KEY_ENDPOINT ->
            NetworkManager.data r !! key = endpoint !! key).
  { intros key Hkey. destruct Hdata as [-> | [value ->]]; [reflexivity|].
    apply setProperty_other. congruence. }
  distinct_keys Hdistinct.
  split.
  - intros w key Hin. unfold data_fields in Hin.
    rewrite !elem_of_cons, elem_of_nil in Hin.
    assert (Hcase : forall t : QString,
              (if isEmpty t then None else Some t) = (None : option string)
              /\ t = EmptyString
              \/ (if isEmpty t then None else Some t) = Some t /\ t <> EmptyString).
    { intros [|a t]; simpl; [left | right]; split; congruence. }
    destruct Hin as [Hin | [Hin | [Hin | [Hin | [Hin | []]]]]];
      injection Hin as -> ->;
      (rewrite Hlookup by congruence); rewrite Hendpoint;
      rewrite ?setProperty_other by congruence;
      rewrite setProperty_same;
      match goal with
      | |- context [isEmpty ?t] => destruct (Hcase t) as [[-> ->] | [-> Hne]]
      end; split; congruence.
  - intros key Hkey. unfold data_keys in Hkey.
    repeat (apply not_elem_of_cons in Hkey as [? Hkey]).
    rewrite Hlookup by congruence. rewrite Hendpoint.
    rewrite !setProperty_other by congruence. reflexivity.
Qed.

End Saving.

Lemma setting_data_entries_witness :
  exists r,
    setting (K := Sample.constants)
      (Sample.wireGuard "10.0.0.9/24" "" "" "" "0.0.0.0/0" "2001:db8::1" "51820") = inr r
    /\ (forall w key, (w, key) ∈ data_fields (K := Sample.constants) ->
          (text (ui (Sample.wireGuard "10.0.0.9/24" "" "" "" "0.0.0.0/0" "2001:db8::1" "51820") w)
             <> EmptyString ->
           NetworkManager.data r !! key
           = Some (text (ui (Sample.wireGuard "10.0.0.9/24" "" "" "" "0.0.0.0/0"
                               "2001:db8::1" "51820") w)))
          /\ (text (ui (Sample.wireGuard "10.0.0.9/24" "" "" "" "0.0.0.0/0" "2001:db8::1" "51820") w)
                = EmptyString ->
              NetworkManager.data r !! key = None))
    /\ (forall key, key ∉ data_keys (K := Sample.constants) ->
          NetworkManager.data r !! key = NetworkManager.data Sample.vpnSetting !! key).
Proof.
  apply (setting_data_entries (K := Sample.constants)
           (Sample.wireGuard "10.0.0.9/24" "" "" "" "0.0.0.0/0" "2001:db8::1" "51820")
           Sample.vpnSetting).
  - apply (bool_decide_unpack _). vm_compute. exact I.
  - reflexivity.
Defined.

Example setting_sample_entries :
  bind (setting (K := Sample.constants)
          (Sample.wireGuard "10.0.0.9/24" "" "" "" "0.0.0.0/0" "2001:db8::1" "51820"))
       (fun r =>
          inr ((fun key => NetworkManager.data r !! key)
                 <$> ["local-ip4"; "local-ip6"; "local-private-key"; "peer-public-key";
                      "peer-allowed-ips"; "peer-endpoint"; "local-listen-port"]))
  = inr [Some "10.0.0.9/24"; None; None; None; Some "0.0.0.0/0";
         Some "[2001:db8::1]:51820"; Some "51820"].
Proof. vm_compute. reflexivity. Qed.

(** The constructor on the two stored settings. *)
Example create_with_endpoint :
  bind (create (V := Sample.validators) (K := Sample.constants)
          (fun _ => Sample.emptyLineEdit) (Some Sample.vpnSetting))
       (fun d => inr (addressValid d, privateKeyValid d, publicKeyValid d,
                      allowedIpsValid d, endpointValid d, isValid d))
  = inr (true, true, true, true, true, true).
Proof. vm_compute. reflexivity. Qed.

Example create_without_endpoint :
  create (V := Sample.validators) (K := Sample.constants)
    (fun _ => Sample.emptyLineEdit) (Some Sample.vpnSettingNoEndpoint)
  = inl (IndexOutOfRange 1 1).
Proof. vm_compute. reflexivity. Qed.

Example create_without_setting :
  bind (create (V := Sample.validators) (K := Sample.constants)
          (fun _ => Sample.emptyLineEdit) None)
       (fun d => inr (addressValid d, privateKeyValid d, publicKeyValid d,
                      allowedIpsValid d, endpointValid d, isValid d))
  = inr (false, false, false, false, true, false).
Proof. vm_compute. reflexivity. Qed.

End WireGuardFacts.

(** ** The network model *)

Module NetworkModelFacts.
Import Qt NetworkModel.

(** A pass of the loop starts and ends with the flag down, and appends the
    device's item if it has one. *)
Lemma visit_appends (st : Loop) (device : NetworkManager.Device) :
  nonVirtualDevice st = false ->
  nonVirtualDevice (visit st device) = false
  /\ m_networkItems (visit st device)
     = m_networkItems st ++ (Some <$> option_list (item_of device)).
Proof.
  intros Hflag. unfold visit, item_of.
  destruct (NetworkManager.type device); simpl; rewrite ?Hflag; simpl;
    rewrite ?app_nil_r; split; reflexivity.
Qed.

Lemma foldl_visit (devices : list NetworkManager.Device) (st : Loop) :
  nonVirtualDevice st = false ->
  m_networkItems (foldl visit st devices)
  = m_networkItems st ++ (Some <$> omap item_of devices).
Proof.
  revert st. induction devices as [|device devices IH]; intros st Hflag; simpl.
  - rewrite app_nil_r. reflexivity.
  - destruct (visit_appends st device Hflag) as [Hflag' Hitems].
    rewrite (IH _ Hflag'), Hitems, <- app_assoc. f_equal.
    destruct (item_of device); reflexivity.
Qed.

Lemma items_counted (devices : list NetworkManager.Device) :
  length (omap item_of devices) = length (List.filter has_item devices).
Proof.
  induction devices as [|device devices IH]; simpl; [reflexivity|].
  unfold has_item at 1. unfold item_of at 1.
  destruct (NetworkManager.type device); simpl; rewrite <- IH; reflexivity.
Qed.

Section Requests.
Variable itemName : NetworkModelItem -> QString.
Variable itemIcon : NetworkModelItem -> QString.

Lemma serve_all_same (m : NetworkModel) (requests : list Request) :
  serve_all itemName itemIcon m requests = m.
Proof.
  unfold serve_all. induction requests as [|r requests IH]; simpl; [reflexivity|].
  destruct r; simpl; exact IH.
Qed.

(** C5. The item list is fixed by the constructor and stays as it is
    through every call on the model.  It holds, in the order of the devices,
    one item for each Ethernet, Modem or Wifi device and none for any other
    device, and then one VPN item; so [count()] and [rowCount()] are the
    number of Ethernet, Modem and Wifi devices plus one, and at least one. *)
Theorem networkModel_items (networkInterfaces : list NetworkManager.Device)
    (requests : list Request) :
  let m := serve_all itemName itemIcon (create networkInterfaces) requests in
  let devices := Z.of_nat (length (List.filter has_item networkInterfaces)) in
  networkItems m
  = (Some <$> omap item_of networkInterfaces)
      ++ [Some {| itemType := Vpn; path := EmptyString |}]
  /\ (forall device,
        match item_of device with
        | Some it =>
            has_item device = true /\ path it = NetworkManager.uni device
            /\ (NetworkManager.type device = NetworkManager.Ethernet /\ itemType it = Ethernet
                \/ NetworkManager.type device = NetworkManager.Modem /\ itemType it = Modem
                \/ NetworkManager.type device = NetworkManager.Wifi /\ itemType it = Wifi)
        | None => has_item device = false
        end)
  /\ count m = (devices + 1)%Z
  /\ (forall parent, rowCount m parent = (devices + 1)%Z)
  /\ (1 <= count m)%Z.
Proof.
  intros m devices. subst m. rewrite serve_all_same.
  assert (Hitems : networkItems (create networkInterfaces)
                   = (Some <$> omap item_of networkInterfaces)
                       ++ [Some {| itemType := Vpn; path := EmptyString |}]).
  { unfold create. simpl. rewrite foldl_visit by reflexivity. reflexivity. }
  assert (Hcount : count (create networkInterfaces) = (devices + 1)%Z).
  { unfold count. rewrite Hitems, length_app, length_fmap, items_counted. simpl.
    subst devices. lia. }
  repeat split.
  - exact Hitems.
  - intros device. unfold item_of, has_item.
    destruct (NetworkManager.type device); simpl; intuition congruence.
  - exact Hcount.
  - intros parent. exact Hcount.
  - rewrite Hcount. subst devices. lia.
Qed.

End Requests.

Example networkModel_sample :
  create
    [ {| NetworkManager.type := NetworkManager.Bridge; NetworkManager.uni := "/Devices/1" |};
      {| NetworkManager.type := NetworkManager.Wifi; NetworkManager.uni := "/Devices/2" |};
      {| NetworkManager.type := NetworkManager.Bluetooth; NetworkManager.uni := "/Devices/3" |};
      {| NetworkManager.type := NetworkManager.Ethernet; NetworkManager.uni := "/Devices/4" |} ]
  = {| networkItems :=
         [ Some {| itemType := Wifi; path := "/Devices/2" |};
           Some {| itemType := Ethernet; path := "/Devices/4" |};
           Some {| itemType := Vpn; path := "" |} ] |}.
Proof. reflexivity. Qed.

Example networkModel_no_device : count (create []) = 1%Z.
Proof. reflexivity. Qed.

End NetworkModelFacts.

(** ** The bridge widget *)

Module BridgeFacts.
Import Qt Bridge QtFacts.

Lemma to_uint_to_int (v : Z) : is_uint v -> to_uint (to_int v) = v.
Proof.
  unfold is_uint, to_uint, to_int. intros Hv.
  destruct (Z_lt_dec v (2 ^ 31)) as [Hlt | Hge].
  - rewrite (Z.mod_small (v + 2 ^ 31)) by lia. rewrite Z.mod_small by lia. lia.
  - replace ((v + 2 ^ 31) mod 2 ^ 32)%Z with (v - 2 ^ 31)%Z.
    + replace (v - 2 ^ 31 - 2 ^ 31)%Z with (v + (-1) * 2 ^ 32)%Z by lia.
      rewrite Z.mod_add by lia. apply Z.mod_small. lia.
    + replace (v + 2 ^ 31)%Z with (v - 2 ^ 31 + 1 * 2 ^ 32)%Z by lia.
      rewrite Z.mod_add by lia. symmetry. apply Z.mod_small. lia.
Qed.

Lemma setValue_in_range (v : Z) (b : QSpinBox) :
  in_range b v -> value (setValue v b) = v.
Proof.
  unfold in_range, setValue. intros [Hlo Hhi]. simpl.
  destruct (Z.ltb_spec v (minimum b)); [lia|].
  destruct (Z.ltb_spec (maximum b) v); [lia | reflexivity].
Qed.

(** A value sent through a spin box and back. *)
Lemma through_spin_box (v : Z) (b : QSpinBox) :
  is_uint v -> in_range b (to_int v) -> to_uint (value (setValue (to_int v) b)) = v.
Proof. intros Hv Hin. rewrite setValue_in_range by exact Hin. apply to_uint_to_int, Hv. Qed.

(** Above the range the spin box stops at its maximum. *)
Lemma setValue_above (v : Z) (b : QSpinBox) :
  (minimum b <= maximum b < v)%Z -> value (setValue v b) = maximum b.
Proof.
  unfold setValue. intros [Hlo Hhi]. simpl.
  destruct (Z.ltb_spec v (minimum b)); [lia|].
  destruct (Z.ltb_spec (maximum b) v); [reflexivity | lia].
Qed.

Section Widget.
Variable BridgeSetting_new : BridgeSetting.
Variable slaveLabel : QString -> NetworkManager.ConnectionType -> QString.

(** What [setting()] returns after [loadConfig]. *)
Lemma setting_loadConfig (w : BridgeWidget) (bridgeSetting : BridgeSetting) :
  let u := m_ui w in
  let through v b := to_uint (value (setValue (to_int v) b)) in
  setting BridgeSetting_new (loadConfig bridgeSetting w) =
  if NetworkManager.stp bridgeSetting
  then
    {| NetworkManager.interfaceName :=
         text (setText (NetworkManager.interfaceName bridgeSetting) (ifaceName u));
       NetworkManager.agingTime := through (NetworkManager.agingTime bridgeSetting) (agingTime u);
       NetworkManager.stp := true;
       NetworkManager.priority := through (NetworkManager.priority bridgeSetting) (priority u);
       NetworkManager.forwardDelay :=
         through (NetworkManager.forwardDelay bridgeSetting) (forwardDelay u);
       NetworkManager.helloTime := through (NetworkManager.helloTime bridgeSetting) (helloTime u);
       NetworkManager.maxAge := through (NetworkManager.maxAge bridgeSetting) (maxAge u) |}
  else
    {| NetworkManager.interfaceName :=
         text (setText (NetworkManager.interfaceName bridgeSetting) (ifaceName u));
       NetworkManager.agingTime := through (NetworkManager.agingTime bridgeSetting) (agingTime u);
       NetworkManager.stp := false;
       NetworkManager.priority := NetworkManager.priority BridgeSetting_new;
       NetworkManager.forwardDelay := NetworkManager.forwardDelay BridgeSetting_new;
       NetworkManager.helloTime := NetworkManager.helloTime BridgeSetting_new;
       NetworkManager.maxAge := NetworkManager.maxAge BridgeSetting_new |}.
Proof.
  unfold setting, loadConfig. cbn [m_ui with_ui stpGroup].
  destruct (NetworkManager.stp bridgeSetting); reflexivity.
Qed.

(** C6 as amended.  For a bridge setting that fits the form (its name within
    the line edit's length, its aging time and, with STP on, its four STP
    parameters within the ranges of their spin boxes), [loadConfig] followed
    by [setting()] preserves the interface name, the aging time and the STP
    flag, and with STP on also priority, forward delay, hello time and max
    age; with STP off these four are not written from the loaded values but
    are those of a new setting. *)
Theorem bridge_round_trip (w : BridgeWidget) (bridgeSetting : BridgeSetting) :
  BridgeSetting_wf bridgeSetting ->
  fits w bridgeSetting ->
  preserved BridgeSetting_new bridgeSetting
    (setting BridgeSetting_new (loadConfig bridgeSetting w)).
Proof.
  intros (Haging & Hpriority & Hdelay & Hhello & Hage) (Hname & Hrange & Hstp).
  rewrite setting_loadConfig. cbv zeta. unfold preserved.
  rewrite setText_text by exact Hname.
  rewrite (through_spin_box (NetworkManager.agingTime bridgeSetting)) by assumption.
  destruct (NetworkManager.stp bridgeSetting) eqn:Estp.
  - destruct (Hstp eq_refl) as (Rpriority & Rdelay & Rhello & Rage).
    rewrite !through_spin_box by assumption.
    cbn. repeat split; intros; congruence.
  - cbn. repeat split; intros; congruence.
Qed.

(** With STP off the four STP parameters come from the new setting, whatever
    the form and the loaded setting hold. *)
Lemma stp_off_not_written (w : BridgeWidget) (bridgeSetting : BridgeSetting) :
  NetworkManager.stp bridgeSetting = false ->
  let saved := setting BridgeSetting_new (loadConfig bridgeSetting w) in
  NetworkManager.priority saved = NetworkManager.priority BridgeSetting_new
  /\ NetworkManager.forwardDelay saved = NetworkManager.forwardDelay BridgeSetting_new
  /\ NetworkManager.helloTime saved = NetworkManager.helloTime BridgeSetting_new
  /\ NetworkManager.maxAge saved = NetworkManager.maxAge BridgeSetting_new.
Proof. intros Hstp. cbv zeta. rewrite setting_loadConfig, Hstp. repeat split. Qed.

(** The aging time that comes back is the loaded one sent through the spin
    box. *)
Lemma saved_agingTime (w : BridgeWidget) (bridgeSetting : BridgeSetting) :
  NetworkManager.agingTime (setting BridgeSetting_new (loadConfig bridgeSetting w))
  = to_uint (value (setValue (to_int (NetworkManager.agingTime bridgeSetting))
                      (agingTime (m_ui w)))).
Proof.
  rewrite setting_loadConfig. destruct (NetworkManager.stp bridgeSetting); reflexivity.
Qed.

Lemma to_uint_of_int (z : Z) :
  is_int z -> to_uint z = if (z <? 0)%Z then (z + 2 ^ 32)%Z else z.
Proof.
  unfold is_int, to_uint. intros Hz. destruct (Z.ltb_spec z 0).
  - replace z with (z + 2 ^ 32 + (-1) * 2 ^ 32)%Z at 1 by lia.
    rewrite Z.mod_add by lia. apply Z.mod_small. lia.
  - apply Z.mod_small. lia.
Qed.

(** Unless the form gives the aging-time spin box the whole range of [int],
    some aging time is not preserved: 2147483647 when the box stops short of
    it, and 2147483648 (the smallest [int] once converted) otherwise. *)
Lemma aging_time_outside_range (w : BridgeWidget) :
  let box := agingTime (m_ui w) in
  is_int (minimum box) -> is_int (maximum box) ->
  (minimum box <= maximum box)%Z ->
  (maximum box < 2147483647 \/ - 2147483648 < minimum box)%Z ->
  exists v, is_uint v /\
    forall bridgeSetting, NetworkManager.agingTime bridgeSetting = v ->
      NetworkManager.agingTime (setting BridgeSetting_new (loadConfig bridgeSetting w))
      <> v.
Proof.
  intros box Hmin Hmax Hle Hshort.
  destruct (Z_lt_dec (maximum box) 2147483647) as [Habove | Hfull].
  - exists 2147483647%Z. split; [unfold is_uint; lia|].
    intros bridgeSetting Haging. rewrite saved_agingTime, Haging.
    change (to_int 2147483647) with 2147483647%Z. fold box.
    rewrite setValue_above by lia. rewrite to_uint_of_int by exact Hmax.
    unfold is_int in *. destruct (Z.ltb_spec (maximum box) 0); lia.
  - exists 2147483648%Z. split; [unfold is_uint; lia|].
    intros bridgeSetting Haging. rewrite saved_agingTime, Haging.
    change (to_int 2147483648) with (-2147483648)%Z. fold box.
    assert (Hvalue : value (setValue (-2147483648) box) = minimum box).
    { unfold setValue. simpl. destruct (Z.ltb_spec (-2147483648) (minimum box)); [reflexivity | lia]. }
    rewrite Hvalue, to_uint_of_int by exact Hmin.
    unfold is_int in *. destruct (Z.ltb_spec (minimum box) 0); lia.
Qed.

(** A name longer than the line edit takes is cut. *)
Lemma long_name_cut (name : QString) (e : QLineEdit) :
  (0 <= maxLength e < Z.of_nat (String.length name))%Z ->
  text (setText name e) <> name.
Proof.
  intros Hlen Heq.
  assert (Hleft : forall n t, String.length (left n t) <= n).
  { intros n; induction n as [|n IH]; intros [|a t]; simpl; try lia.
    specialize (IH t). lia. }
  unfold setText in Heq. simpl in Heq.
  destruct (isEmpty name) eqn:Ename.
  - apply isEmpty_true in Ename. subst name. simpl in Hlen. lia.
  - specialize (Hleft (Z.to_nat (maxLength e)) name). rewrite Heq in Hleft. lia.
Qed.

End Widget.

Lemma bridge_round_trip_witness :
  preserved Sample.bridgeDefaults Sample.bridgeSetting
    (setting Sample.bridgeDefaults (loadConfig Sample.bridgeSetting Sample.bridgeWidget)).
Proof.
  apply (bridge_round_trip Sample.bridgeDefaults Sample.bridgeWidget Sample.bridgeSetting).
  - vm_compute. repeat (split || intro); done.
  - vm_compute. repeat (split || intro); done.
Defined.

(** C6 as stated fails outside the ranges of the form: with spin boxes that
    stop at 999999999, an aging time of 2147483647 comes back as 999999999
    (by [aging_time_outside_range] any range short of the whole of [int]
    loses some aging time). *)
Lemma bridge_round_trip_out_of_range :
  BridgeSetting_wf Sample.bridgeSettingLongAging
  /\ NetworkManager.agingTime Sample.bridgeSettingLongAging = 2147483647%Z
  /\ NetworkManager.agingTime
       (setting Sample.bridgeDefaults
          (loadConfig Sample.bridgeSettingLongAging Sample.bridgeWidget)) = 999999999%Z
  /\ ~ preserved Sample.bridgeDefaults Sample.bridgeSettingLongAging
        (setting Sample.bridgeDefaults
           (loadConfig Sample.bridgeSettingLongAging Sample.bridgeWidget)).
Proof.
  split; [|split; [|split]].
  - vm_compute. repeat (split || intro); done.
  - reflexivity.
  - reflexivity.
  - intros (_ & Haging & _). vm_compute in Haging. discriminate Haging.
Qed.

Section Slaves.
Variable slaveLabel : QString -> NetworkManager.ConnectionType -> QString.

(** The test of the loop only reads what the loop does not write. *)
Lemma addIfSlave_frame (w : BridgeWidget) (connection : Connection) :
  m_uuid (addIfSlave slaveLabel w connection) = m_uuid w
  /\ m_id (addIfSlave slaveLabel w connection) = m_id w
  /\ type (addIfSlave slaveLabel w connection) = type w.
Proof. unfold addIfSlave. destruct (_ && _); repeat split. Qed.

Lemma selected_iff (w : BridgeWidget) (connection : Connection) :
  isSlave w connection && bool_decide (NetworkManager.slaveType connection = type w) = true
  <-> is_slave_of w connection.
Proof.
  unfold isSlave, is_slave_of.
  rewrite andb_true_iff, orb_true_iff, andb_true_iff, negb_true_iff,
    !bool_decide_eq_true, isEmpty_false.
  reflexivity.
Qed.

Lemma foldl_addIfSlave (listConnections : list Connection) (w : BridgeWidget) :
  bridges (m_ui (foldl (addIfSlave slaveLabel) w listConnections))
  = bridges (m_ui w)
      ++ (slaveItem slaveLabel
            <$> List.filter
                  (fun c => isSlave w c
                            && bool_decide (NetworkManager.slaveType c = type w))
                  listConnections).
Proof.
  revert w. induction listConnections as [|c l IH]; intros w; simpl.
  - rewrite app_nil_r. reflexivity.
  - rewrite IH. destruct (addIfSlave_frame w c) as (Huuid & Hid & Htype).
    unfold isSlave in *. rewrite Huuid, Hid, Htype.
    unfold addIfSlave, isSlave.
    destruct (_ && bool_decide (NetworkManager.slaveType c = type w)); simpl.
    + rewrite <- app_assoc. reflexivity.
    + reflexivity.
Qed.

(** C7. [populateBridges] lists the slaves of this bridge: a connection is
    in the list exactly when its master is the widget's UUID, or the
    widget's non-empty id, and its slave type is the widget's type.  The
    items come in the order of the connections, one for each such
    connection, and each carries its connection's UUID as user data (so,
    UUIDs being unique, an item in the list is the item of such a
    connection only). *)
Theorem populateBridges_lists_slaves (listConnections : list Connection)
    (w : BridgeWidget) :
  let listed := bridges (m_ui (populateBridges slaveLabel listConnections w)) in
  listed
  = slaveItem slaveLabel
      <$> List.filter
            (fun c => isSlave w c && bool_decide (NetworkManager.slaveType c = type w))
            listConnections
  /\ (forall item,
        item ∈ listed <->
        exists connection,
          connection ∈ listConnections
          /\ (NetworkManager.master connection = m_uuid w
              \/ (m_id w <> EmptyString /\ NetworkManager.master connection = m_id w))
          /\ NetworkManager.slaveType connection = type w
          /\ item = slaveItem slaveLabel connection)
  /\ (forall connection,
        connection ∈ listConnections -> is_slave_of w connection ->
        slaveItem slaveLabel connection ∈ listed)
  /\ ((forall c c', c ∈ listConnections -> c' ∈ listConnections ->
         NetworkManager.uuid c = NetworkManager.uuid c' -> c = c') ->
      forall connection,
        connection ∈ listConnections ->
        slaveItem slaveLabel connection ∈ listed -> is_slave_of w connection)
  /\ (forall connection,
        userData (slaveItem slaveLabel connection) = NetworkManager.uuid connection).
Proof.
  intros listed.
  assert (Hlisted : listed
            = slaveItem slaveLabel
                <$> List.filter
                      (fun c => isSlave w c
                                && bool_decide (NetworkManager.slaveType c = type w))
                      listConnections).
  { unfold listed, populateBridges. rewrite foldl_addIfSlave. reflexivity. }
  assert (Hiff : forall item,
            item ∈ listed <->
            exists connection,
              connection ∈ listConnections /\ is_slave_of w connection
              /\ item = slaveItem slaveLabel connection).
  { intros item. rewrite Hlisted, list_elem_of_fmap. split.
    - intros (c & -> & Hin). apply list_elem_of_In, filter_In in Hin as [Hin Hsel].
      apply (selected_iff w c) in Hsel.
      exists c. rewrite list_elem_of_In. auto.
    - intros (c & Hin & Hslave & ->). exists c. split; [reflexivity|].
      apply list_elem_of_In, filter_In. split; [apply list_elem_of_In, Hin|].
      apply (selected_iff w c), Hslave. }
  split; [exact Hlisted|]. split; [|split; [|split]].
  - intros item. rewrite Hiff. unfold is_slave_of.
    split; intros (c & Hin & Hrest); exists c; tauto.
  - intros c Hin Hslave. apply Hiff. exists c. auto.
  - intros Hunique c Hin Hitem. apply Hiff in Hitem as (c' & Hin' & Hslave & Heq).
    assert (c = c') as ->; [|exact Hslave].
    apply Hunique; [assumption..|].
    apply (f_equal userData) in Heq. exact Heq.
  - reflexivity.
Qed.

End Slaves.

(** C8. [isValid] is true exactly when the interface name is not empty and
    the bridges list has at least one item; an empty name or an empty list
    makes the widget invalid. *)
Theorem bridge_isValid_cases (w : BridgeWidget) :
  (isValid w = true <->
     text (ifaceName (m_ui w)) <> EmptyString
     /\ exists item, item ∈ bridges (m_ui w))
  /\ (text (ifaceName (m_ui w)) = EmptyString \/ bridges (m_ui w) = [] ->
      isValid w = false).
Proof.
  unfold isValid, count.
  pose proof (isEmpty_true (text (ifaceName (m_ui w)))) as Hname.
  destruct (isEmpty (text (ifaceName (m_ui w)))) eqn:Ename;
    destruct (bridges (m_ui w)) as [|item l] eqn:Elist; simpl.
  - split; [|reflexivity]. split; [discriminate|].
    intros [Hne _]. destruct Hne. apply Hname. reflexivity.
  - split; [|reflexivity]. split; [discriminate|].
    intros [Hne _]. destruct Hne. apply Hname. reflexivity.
  - split; [|reflexivity]. split; [discriminate|].
    intros [_ [item Hin]]. apply elem_of_nil in Hin. destruct Hin.
  - split.
    + split; [|intros _; reflexivity].
      intros _. split.
      * intros Hempty. apply Hname in Hempty. discriminate.
      * exists item. apply list_elem_of_here.
    + intros [Hempty | Hnil]; [apply Hname in Hempty|]; discriminate.
Qed.

Lemma populateBridges_lists_slaves_witness :
  is_slave_of Sample.bridgeWidget Sample.slaveByName.
Proof.
  destruct (populateBridges_lists_slaves Sample.slaveLabel
              [Sample.slaveByName; Sample.otherConnection] Sample.bridgeWidget)
    as (_ & _ & _ & Hlisted & _).
  apply Hlisted.
  - intros c c'. rewrite !elem_of_cons, !elem_of_nil.
    intros [-> | [-> | []]] [-> | [-> | []]]; (reflexivity || discriminate).
  - apply list_elem_of_here.
  - vm_compute. apply list_elem_of_here.
Defined.

Example populateBridges_sample :
  bridges
    (m_ui
       (populateBridges Sample.slaveLabel
          [ Sample.slaveByUuid; Sample.bondSlave; Sample.slaveByName;
            Sample.otherConnection ]
          Sample.bridgeWidget))
  = [ {| label := "eth-slave (Wired Ethernet)"; userData := "11111111-aaaa" |};
      {| label := "wifi-slave (Wi-Fi)"; userData := "33333333-cccc" |} ].
Proof. vm_compute. reflexivity. Qed.

Example bridge_new_form_invalid : isValid Sample.bridgeWidget = false.
Proof. reflexivity. Qed.

Example bridge_loaded_and_saved :
  setting Sample.bridgeDefaults (loadConfig Sample.bridgeSetting Sample.bridgeWidget)
  = Sample.bridgeSetting.
Proof. vm_compute. reflexivity. Qed.

Example bridge_stp_off_saved :
  setting Sample.bridgeDefaults
    (loadConfig (NetworkManager.setStp false Sample.bridgeSetting) Sample.bridgeWidget)
  = {| NetworkManager.interfaceName := "br0";
       NetworkManager.agingTime := 600;
       NetworkManager.stp := false;
       NetworkManager.priority := 128;
       NetworkManager.forwardDelay := 15;
       NetworkManager.helloTime := 2;
       NetworkManager.maxAge := 20 |}.
Proof. vm_compute. reflexivity. Qed.

End BridgeFacts.

(** ** More on strings: taking an endpoint apart *)

Module StringLaws.
Import Qt QtFacts.





Lemma prefix_char (c a : ascii) (s : QString) :
  String.prefix (String c EmptyString) (String a s) = Ascii.eqb a c.
Proof.
  cbn [String.prefix]. destruct (Ascii.ascii_dec c a) as [<-|Hne].
  - rewrite Ascii.eqb_refl. destruct s; reflexivity.
  - destruct (Ascii.eqb_spec a c); congruence.
Qed.






(** [remove] and a text with or without the character. *)
Lemma contains_char (c a : ascii) (s : QString) :
  contains (String c EmptyString) (String a s)
  = Ascii.eqb a c || contains (String c EmptyString) s.
Proof.
  unfold contains. rewrite (indexOf_eq _ (String a s)), prefix_char.
  destruct (Ascii.eqb a c); [reflexivity|].
  destruct (indexOf (String c EmptyString) s); reflexivity.
Qed.


Lemma remove_gone (c : ascii) (s : QString) :
  contains (String c EmptyString) (remove c s) = false.
Proof.
  induction s as [|a s IH]; [reflexivity|]. simpl.
  destruct (Ascii.eqb a c) eqn:Ha; [exact IH|].
  rewrite contains_char, Ha, IH. reflexivity.
Qed.

Lemma remove_keeps_absent (c b : ascii) (s : QString) :
  contains (String b EmptyString) s = false ->
  contains (String b EmptyString) (remove c s) = false.
Proof.
  induction s as [|a s IH]; [reflexivity|].
  rewrite contains_char. intros Hc. apply orb_false_iff in Hc as [Ha Hs]. simpl.
  destruct (Ascii.eqb a c); [exact (IH Hs)|].
  rewrite contains_char, Ha, (IH Hs). reflexivity.
Qed.

Lemma left_keeps_absent (b : ascii) (n : nat) (s : QString) :
  contains (String b EmptyString) s = false ->
  contains (String b EmptyString) (left n s) = false.
Proof.
  revert s. induction n as [|n IH]; intros [|a s]; try reflexivity.
  rewrite contains_char. intros Hc. apply orb_false_iff in Hc as [Ha Hs]. simpl.
  rewrite contains_char, Ha, (IH _ Hs). reflexivity.
Qed.

(** The text before the first occurrence of a character has none. *)
Lemma left_before_first (c : ascii) (s : QString) (i : nat) :
  indexOf (String c EmptyString) s = Some i ->
  contains (String c EmptyString) (left i s) = false.
Proof.
  revert i. induction s as [|a s IH]; intros i; rewrite indexOf_eq.
  - simpl. discriminate.
  - destruct (String.prefix _ _) eqn:Hp.
    + intros [= <-]. reflexivity.
    + destruct (indexOf (String c EmptyString) s) as [j|] eqn:Hj; [|discriminate].
      intros [= <-]. cbn [left]. rewrite contains_char, (IH j eq_refl), orb_false_r.
      rewrite prefix_char in Hp. exact Hp.
Qed.

Lemma setText_keeps_absent (b : ascii) (t : QString) (e : QLineEdit) :
  contains (String b EmptyString) t = false ->
  contains (String b EmptyString) (text (setText t e)) = false.
Proof.
  intros Ht. unfold setText. simpl. destruct (isEmpty t); [exact Ht|].
  apply left_keeps_absent, Ht.
Qed.

End StringLaws.

(** ** The WireGuard widget: flags, backgrounds, saving and loading again *)

Module WireGuardLaws.
Import Qt WireGuard WireGuardDialog QtFacts StringLaws.

Ltac lookups :=
  repeat first [ rewrite fn_lookup_insert
               | rewrite fn_lookup_insert_ne by discriminate ].

Ltac unfold_verdicts :=
  unfold in_sync, field_ok, address_ok, privateKey_ok, publicKey_ok, allowedIps_ok,
    endpoint_ok, endpoint_blank, endpoint_address_ok, endpoint_port_ok in *.

Ltac unfold_slots :=
  unfold textChanged, checkAddressValid, checkPrivateKeyValid, checkPublicKeyValid,
    checkAllowedIpsValid, checkEndpointValid, setBackground, displayText,
    with_addressValid, with_privateKeyValid, with_publicKeyValid,
    with_allowedIpsValid, with_endpointValid, with_palette, with_ui;
  cbn [ui palette d_setting addressValid privateKeyValid publicKeyValid
       allowedIpsValid endpointValid].

Section Sync.
Context {V : Validators}.

(** The check slots write flags and palettes only. *)
Lemma textChanged_ui (w : LineEdit) (d : Private) :
  ui (textChanged w d) = ui d /\ d_setting (textChanged w d) = d_setting d.
Proof. destruct w; split; reflexivity. Qed.

Lemma setText_ui (w : LineEdit) (t : QString) (d : Private) :
  ui (setText w t d) = <[w := Qt.setText t (ui d w)]> (ui d)
  /\ d_setting (setText w t d) = d_setting d.
Proof.
  unfold setText. destruct (bool_decide _).
  - split; reflexivity.
  - destruct (textChanged_ui w (with_ui (<[w:=Qt.setText t (ui d w)]> (ui d)) d)) as [-> ->].
    split; reflexivity.
Qed.

(** A text change keeps flags and backgrounds in step with the texts. *)
Lemma in_sync_setText (w : LineEdit) (t : QString) (d : Private) :
  in_sync d -> in_sync (setText w t d).
Proof.
  intros Hsync.
  assert (Hfields : forall w', palette d w' = palette_for (field_ok d w'))
    by apply Hsync.
  pose proof (Hfields addressIPv4LineEdit) as P1.
  pose proof (Hfields addressIPv6LineEdit) as P2.
  pose proof (Hfields privateKeyLineEdit) as P3.
  pose proof (Hfields publicKeyLineEdit) as P4.
  pose proof (Hfields allowedIPsLineEdit) as P5.
  pose proof (Hfields endpointAddressLineEdit) as P6.
  pose proof (Hfields endpointPortLineEdit) as P7.
  clear Hfields. destruct Hsync as (Ha & Hpr & Hpu & Hal & He & _).
  unfold setText. destruct (bool_decide _) eqn:Hsame.
  - apply bool_decide_eq_true in Hsame.
    destruct w; unfold_verdicts; unfold_slots; lookups; rewrite ?Hsame;
      (repeat split; try assumption);
      intros w'; destruct w'; lookups; rewrite ?Hsame; assumption.
  - clear Hsame.
    destruct w; unfold_verdicts; unfold_slots; lookups; rewrite ?negb_involutive;
      (repeat split; try assumption; try reflexivity);
      intros w'; destruct w'; lookups; rewrite ?negb_involutive;
      first [assumption | reflexivity].
Qed.

Lemma in_sync_changeTexts (changes : list (LineEdit * QString)) (d : Private) :
  in_sync d -> in_sync (changeTexts changes d).
Proof.
  unfold changeTexts. revert d.
  induction changes as [|[w t] changes IH]; intros d Hsync; [exact Hsync|].
  simpl. apply IH, in_sync_setText, Hsync.
Qed.

(** The verdicts read the texts only. *)
Lemma verdicts_ui (d1 d2 : Private) :
  ui d1 = ui d2 ->
  address_ok d1 = address_ok d2 /\ privateKey_ok d1 = privateKey_ok d2
  /\ publicKey_ok d1 = publicKey_ok d2 /\ allowedIps_ok d1 = allowedIps_ok d2
  /\ endpoint_ok d1 = endpoint_ok d2 /\ forall w, field_ok d1 w = field_ok d2 w.
Proof.
  intros Hui. unfold_verdicts. rewrite Hui. repeat split.
Qed.

(** What each check writes. *)
Lemma checkAddressValid_writes (d : Private) :
  let d' := checkAddressValid d in
  ui d' = ui d
  /\ addressValid d' = address_ok d /\ privateKeyValid d' = privateKeyValid d
  /\ publicKeyValid d' = publicKeyValid d /\ allowedIpsValid d' = allowedIpsValid d
  /\ endpointValid d' = endpointValid d
  /\ palette d'
     = <[addressIPv6LineEdit := palette_for (address_ok d)]>
         (<[addressIPv4LineEdit := palette_for (address_ok d)]> (palette d)).
Proof.
  unfold address_ok. unfold_slots. rewrite !negb_involutive. repeat split.
Qed.

Lemma checkPrivateKeyValid_writes (d : Private) :
  let d' := checkPrivateKeyValid d in
  ui d' = ui d
  /\ addressValid d' = addressValid d /\ privateKeyValid d' = privateKey_ok d
  /\ publicKeyValid d' = publicKeyValid d /\ allowedIpsValid d' = allowedIpsValid d
  /\ endpointValid d' = endpointValid d
  /\ palette d' = <[privateKeyLineEdit := palette_for (privateKey_ok d)]> (palette d).
Proof. repeat split. Qed.

Lemma checkPublicKeyValid_writes (d : Private) :
  let d' := checkPublicKeyValid d in
  ui d' = ui d
  /\ addressValid d' = addressValid d /\ privateKeyValid d' = privateKeyValid d
  /\ publicKeyValid d' = publicKey_ok d /\ allowedIpsValid d' = allowedIpsValid d
  /\ endpointValid d' = endpointValid d
  /\ palette d' = <[publicKeyLineEdit := palette_for (publicKey_ok d)]> (palette d).
Proof. repeat split. Qed.

Lemma checkAllowedIpsValid_writes (d : Private) :
  let d' := checkAllowedIpsValid d in
  ui d' = ui d
  /\ addressValid d' = addressValid d /\ privateKeyValid d' = privateKeyValid d
  /\ publicKeyValid d' = publicKeyValid d /\ allowedIpsValid d' = allowedIps_ok d
  /\ endpointValid d' = endpointValid d
  /\ palette d' = <[allowedIPsLineEdit := palette_for (allowedIps_ok d)]> (palette d).
Proof. repeat split. Qed.

Lemma checkEndpointValid_writes (d : Private) :
  let d' := checkEndpointValid d in
  ui d' = ui d
  /\ addressValid d' = addressValid d /\ privateKeyValid d' = privateKeyValid d
  /\ publicKeyValid d' = publicKeyValid d /\ allowedIpsValid d' = allowedIpsValid d
  /\ endpointValid d' = endpoint_ok d
  /\ palette d'
     = <[endpointPortLineEdit := palette_for (endpoint_blank d || endpoint_port_ok d)]>
         (<[endpointAddressLineEdit :=
              palette_for (endpoint_blank d || endpoint_address_ok d)]> (palette d)).
Proof. repeat split. Qed.

(** The five checks in a row bring any state in step. *)
Lemma in_sync_checks (d : Private) :
  in_sync
    (checkEndpointValid
       (checkAllowedIpsValid
          (checkPublicKeyValid (checkPrivateKeyValid (checkAddressValid d))))).
Proof.
  destruct (checkAddressValid_writes d) as (U1 & A1 & B1 & C1 & D1 & E1 & P1).
  remember (checkAddressValid d) as d1 eqn:Hd1. clear Hd1.
  destruct (checkPrivateKeyValid_writes d1) as (U2 & A2 & B2 & C2 & D2 & E2 & P2).
  remember (checkPrivateKeyValid d1) as d2 eqn:Hd2. clear Hd2.
  destruct (checkPublicKeyValid_writes d2) as (U3 & A3 & B3 & C3 & D3 & E3 & P3).
  remember (checkPublicKeyValid d2) as d3 eqn:Hd3. clear Hd3.
  destruct (checkAllowedIpsValid_writes d3) as (U4 & A4 & B4 & C4 & D4 & E4 & P4).
  remember (checkAllowedIpsValid d3) as d4 eqn:Hd4. clear Hd4.
  destruct (checkEndpointValid_writes d4) as (U5 & A5 & B5 & C5 & D5 & E5 & P5).
  remember (checkEndpointValid d4) as d5 eqn:Hd5. clear Hd5.
  destruct (verdicts_ui d1 d U1) as (Va1 & Vb1 & Vc1 & Vd1 & Ve1 & Vf1).
  destruct (verdicts_ui d2 d1 U2) as (Va2 & Vb2 & Vc2 & Vd2 & Ve2 & Vf2).
  destruct (verdicts_ui d3 d2 U3) as (Va3 & Vb3 & Vc3 & Vd3 & Ve3 & Vf3).
  destruct (verdicts_ui d4 d3 U4) as (Va4 & Vb4 & Vc4 & Vd4 & Ve4 & Vf4).
  destruct (verdicts_ui d5 d4 U5) as (Va5 & Vb5 & Vc5 & Vd5 & Ve5 & Vf5).
  assert (Hblank : endpoint_blank d4 = endpoint_blank d
                   /\ endpoint_address_ok d4 = endpoint_address_ok d
                   /\ endpoint_port_ok d4 = endpoint_port_ok d).
  { unfold endpoint_blank, endpoint_address_ok, endpoint_port_ok.
    rewrite U4, U3, U2, U1. repeat split. }
  destruct Hblank as (Hb1 & Hb2 & Hb3).
  unfold in_sync. repeat split; try congruence.
  intros w. rewrite Vf5, Vf4, Vf3, Vf2, Vf1, P5, P4, P3, P2, P1.
  rewrite Hb1, Hb2, Hb3, Vb1, Vc2, Vc1, Vd3, Vd2, Vd1.
  destruct w; lookups; reflexivity.
Qed.

(** In step, the widget is valid exactly when no field is highlighted. *)
Lemma in_sync_valid (d : Private) :
  in_sync d ->
  isValid d
  = address_ok d && privateKey_ok d && publicKey_ok d && allowedIps_ok d && endpoint_ok d
  /\ (isValid d = true <-> forall w, palette d w = normalPalette).
Proof.
  intros (Ha & Hpr & Hpu & Hal & He & Hp). unfold isValid.
  rewrite Ha, Hpr, Hpu, Hal, He. split; [reflexivity|].
  assert (Hnormal : forall b, palette_for b = normalPalette <-> b = true).
  { intros [|]; simpl; split; congruence. }
  split.
  - intros Hvalid w. rewrite Hp. apply Hnormal.
    unfold endpoint_ok in Hvalid. unfold field_ok.
    destruct (address_ok d), (privateKey_ok d), (publicKey_ok d), (allowedIps_ok d),
      (endpoint_blank d), (endpoint_address_ok d), (endpoint_port_ok d);
      simpl in Hvalid; try discriminate; destruct w; reflexivity.
  - intros Hall.
    pose proof (proj1 (Hnormal _) (eq_trans (eq_sym (Hp addressIPv4LineEdit))
                                     (Hall addressIPv4LineEdit))) as F1.
    pose proof (proj1 (Hnormal _) (eq_trans (eq_sym (Hp privateKeyLineEdit))
                                     (Hall privateKeyLineEdit))) as F2.
    pose proof (proj1 (Hnormal _) (eq_trans (eq_sym (Hp publicKeyLineEdit))
                                     (Hall publicKeyLineEdit))) as F3.
    pose proof (proj1 (Hnormal _) (eq_trans (eq_sym (Hp allowedIPsLineEdit))
                                     (Hall allowedIPsLineEdit))) as F4.
    pose proof (proj1 (Hnormal _) (eq_trans (eq_sym (Hp endpointAddressLineEdit))
                                     (Hall endpointAddressLineEdit))) as F5.
    pose proof (proj1 (Hnormal _) (eq_trans (eq_sym (Hp endpointPortLineEdit))
                                     (Hall endpointPortLineEdit))) as F6.
    unfold field_ok in *. unfold endpoint_ok. rewrite F1, F2, F3, F4. simpl.
    destruct (endpoint_blank d), (endpoint_address_ok d), (endpoint_port_ok d);
      simpl in *; congruence.
Qed.

Section Construction.
Context {K : Constants}.

Lemma create_in_sync (ui0 : LineEdit -> QLineEdit) (s : option VpnSetting) (d : Private) :
  create ui0 s = inr d -> in_sync d.
Proof.
  unfold create, bind.
  destruct (match s with
            | Some st => if negb (NetworkManager.isNull st)
                         then loadConfig (Private_new ui0 s)
                         else inr (Private_new ui0 s)
            | None => inr (Private_new ui0 s)
            end) as [?|d1]; [discriminate|].
  intros [= <-]. apply in_sync_checks.
Qed.

(** X1. After the constructor, and after any run of text changes since, the
    flags and the backgrounds follow the texts that are in the fields:
    [isValid] is the validators' verdict on the current texts, and the
    widget is valid exactly when every line edit has the normal palette. *)
Theorem valid_follows_texts (ui0 : LineEdit -> QLineEdit) (s : option VpnSetting)
    (d : Private) (changes : list (LineEdit * QString)) :
  create ui0 s = inr d ->
  let d' := changeTexts changes d in
  isValid d'
  = address_ok d' && privateKey_ok d' && publicKey_ok d' && allowedIps_ok d'
    && endpoint_ok d'
  /\ (forall w, palette d' w = palette_for (field_ok d' w))
  /\ (isValid d' = true <-> forall w, palette d' w = normalPalette).
Proof.
  intros Hcreate d'.
  assert (Hsync : in_sync d') by apply in_sync_changeTexts, (create_in_sync _ _ _ Hcreate).
  destruct (in_sync_valid d' Hsync) as [Hvalid Hnormal].
  split; [exact Hvalid|]. split; [apply Hsync | exact Hnormal].
Qed.

End Construction.
End Sync.

Section Saving.
Context {K : Constants}.

(** [setting()] in terms of the entries it writes. *)
Lemma setting_result (d : Private) (st : VpnSetting) :
  d_setting d = Some st ->
  setting d
  = inr (setData
           (if isEmpty (text (ui d endpointAddressLineEdit))
            then plain_entries d (NetworkManager.data st)
            else setProperty (plain_entries d (NetworkManager.data st))
                   NM_WG_KEY_ENDPOINT (endpoint_text d))
           (setServiceType NM_DBUS_SERVICE_WIREGUARD VpnSetting_new)).
Proof.
  intros Hst. unfold setting, plain_entries, endpoint_text, displayText. rewrite Hst.
  destruct (isEmpty (text (ui d endpointAddressLineEdit))); simpl negb; cbv iota;
    [reflexivity|].
  destruct (contains ":" (text (ui d endpointAddressLineEdit))); reflexivity.
Qed.

Ltac split_keys Hdistinct :=
  unfold data_keys in Hdistinct;
  repeat match goal with
         | Hd : NoDup (_ :: _) |- _ => apply NoDup_cons in Hd as [? Hd]
         end;
  repeat match goal with
         | Hn : _ ∉ _ :: _ |- _ => apply not_elem_of_cons in Hn as [? Hn]
         end.

Lemma field_entry (t : QString) :
  (if isEmpty t then None else Some t) = (None : option string) /\ t = EmptyString
  \/ (if isEmpty t then None else Some t) = Some t /\ t <> EmptyString.
Proof. destruct t; simpl; [left | right]; split; congruence. Qed.

Lemma plain_entries_field (d : Private) (data : gmap string string)
    (w : LineEdit) (key : QString) :
  NoDup data_keys -> (w, key) ∈ data_fields ->
  plain_entries d data !! key
  = if isEmpty (text (ui d w)) then None else Some (text (ui d w)).
Proof.
  intros Hdistinct Hin. split_keys Hdistinct.
  unfold data_fields in Hin. rewrite !elem_of_cons, elem_of_nil in Hin.
  unfold plain_entries.
  destruct Hin as [Hin | [Hin | [Hin | [Hin | [Hin | []]]]]];
    injection Hin as -> ->;
    rewrite ?WireGuardFacts.setProperty_other by congruence;
    apply WireGuardFacts.setProperty_same.
Qed.

Lemma plain_entries_other (d : Private) (data : gmap string string) (key : QString) :
  key ∉ fmap snd data_fields ->
  plain_entries d data !! key = data !! key.
Proof.
  intros Hkey. unfold data_fields in Hkey. simpl in Hkey.
  repeat (apply not_elem_of_cons in Hkey as [? Hkey]).
  unfold plain_entries.
  rewrite !WireGuardFacts.setProperty_other by congruence. reflexivity.
Qed.

Lemma endpoint_key_apart :
  NoDup data_keys -> NM_WG_KEY_ENDPOINT ∉ fmap snd data_fields.
Proof.
  intros Hdistinct. split_keys Hdistinct. unfold data_fields. simpl.
  rewrite !not_elem_of_cons. repeat split; try congruence; try apply not_elem_of_nil.
Qed.

(** The endpoint text always has a colon. *)
Lemma endpoint_text_colon (d : Private) : contains ":" (endpoint_text d) = true.
Proof.
  unfold endpoint_text. cbv zeta. apply contains_iff.
  destruct (contains ":" (text (ui d endpointAddressLineEdit))).
  - exists ("[" +:+ trimmed (text (ui d endpointAddressLineEdit)) +:+ "]"),
      (trimmed (text (ui d endpointPortLineEdit))).
    rewrite !append_assoc. reflexivity.
  - eexists _, _. reflexivity.
Qed.


End Saving.

Section Loading.
Context {V : Validators} {K : Constants}.

(** [loadConfig] returns exactly when the stored endpoint has a colon. *)
Lemma loadConfig_returns_iff (d : Private) (st : VpnSetting) :
  d_setting d = Some st ->
  (exists d', loadConfig d = inr d')
  <-> contains ":" (value_of (NetworkManager.data st) NM_WG_KEY_ENDPOINT) = true.
Proof.
  intros Hst.
  pose proof (WireGuardFacts.endpointList_eq (NetworkManager.data st)) as Hlist.
  cbv zeta in Hlist.
  set (stored := value_of (NetworkManager.data st) NM_WG_KEY_ENDPOINT) in *.
  destruct (contains "]:" stored) eqn:Hbracket.
  - pose proof (contains_bracket_colon stored Hbracket) as Hcolon. rewrite Hcolon.
    split; [reflexivity|]. intros _.
    apply (WireGuardFacts.loadConfig_two_parts d st Hst).
    rewrite Hlist. apply split_second_iff, Hbracket.
  - split.
    + intros [d' Hd']. destruct (contains ":" stored) eqn:Hcolon; [reflexivity|].
      rewrite (WireGuardFacts.loadConfig_one_part d st stored Hst) in Hd';
        [discriminate|].
      rewrite Hlist. apply split_without, Hcolon.
    + intros Hcolon. apply (WireGuardFacts.loadConfig_two_parts d st Hst).
      rewrite Hlist. apply split_second_iff, Hcolon.
Qed.

Lemma loadConfig_fails (d : Private) (st : VpnSetting) :
  d_setting d = Some st ->
  contains ":" (value_of (NetworkManager.data st) NM_WG_KEY_ENDPOINT) = false ->
  loadConfig d = inl (IndexOutOfRange 1 1).
Proof.
  intros Hst Hcolon.
  pose proof (WireGuardFacts.endpointList_eq (NetworkManager.data st)) as Hlist.
  cbv zeta in Hlist.
  set (stored := value_of (NetworkManager.data st) NM_WG_KEY_ENDPOINT) in *.
  destruct (contains "]:" stored) eqn:Hbracket.
  - apply contains_bracket_colon in Hbracket. congruence.
  - apply (WireGuardFacts.loadConfig_one_part d st stored Hst).
    rewrite Hlist. apply split_without, Hcolon.
Qed.

(** The fields after a [loadConfig] over a list of at least two parts. *)
Lemma loadConfig_fields (d : Private) (st : VpnSetting) (e0 e1 : QString)
    (rest : list QString) :
  d_setting d = Some st ->
  endpointList (NetworkManager.data st) = e0 :: e1 :: rest ->
  exists d',
    loadConfig d = inr d'
    /\ d_setting d' = Some st
    /\ (forall w key, (w, key) ∈ data_fields ->
          ui d' w = Qt.setText (value_of (NetworkManager.data st) key) (ui d w))
    /\ ui d' endpointAddressLineEdit
       = Qt.setText (remove "[" e0) (ui d endpointAddressLineEdit)
    /\ ui d' endpointPortLineEdit = Qt.setText e1 (ui d endpointPortLineEdit).
Proof.
  intros Hst Hlist. unfold loadConfig. rewrite Hst, Hlist. cbn [at_ lookup list_lookup bind].
  eexists. split; [reflexivity|].
  repeat match goal with
         | |- context [ui (setText ?w ?t ?x)] =>
             rewrite (proj1 (setText_ui w t x))
         | |- context [d_setting (setText ?w ?t ?x)] =>
             rewrite (proj2 (setText_ui w t x))
         end.
  split; [exact Hst|]. split; [|split].
  - intros w key Hin. unfold data_fields in Hin.
    rewrite !elem_of_cons, elem_of_nil in Hin.
    destruct Hin as [Hin | [Hin | [Hin | [Hin | [Hin | []]]]]];
      injection Hin as -> ->; lookups; reflexivity.
  - lookups. reflexivity.
  - lookups. reflexivity.
Qed.

(** X3. Saving and loading again.  The setting that [setting()] returns can
    be loaded by [loadConfig] exactly when the endpoint address field was
    filled or the setting it started from had an endpoint with a colon; a
    widget saved with an empty endpoint address over a setting without an
    endpoint gives a setting on which [loadConfig] reads past the end of
    the list. *)
Theorem saved_setting_loads (d : Private) (st : VpnSetting) :
  NoDup data_keys ->
  d_setting d = Some st ->
  exists r,
    setting d = inr r
    /\ forall d2, d_setting d2 = Some r ->
         ((exists d3, loadConfig d2 = inr d3)
          <-> text (ui d endpointAddressLineEdit) <> EmptyString
              \/ contains ":" (value_of (NetworkManager.data st) NM_WG_KEY_ENDPOINT) = true)
         /\ (text (ui d endpointAddressLineEdit) = EmptyString ->
             NetworkManager.data st !! NM_WG_KEY_ENDPOINT = None ->
             loadConfig d2 = inl (IndexOutOfRange 1 1)).
Proof.
  intros Hdistinct Hst.
  eexists. split; [apply (setting_result d st Hst)|].
  intros d2 Hd2.
  set (r := setData _ _) in Hd2.
  assert (Hvalue :
    value_of (NetworkManager.data r) NM_WG_KEY_ENDPOINT
    = if isEmpty (text (ui d endpointAddressLineEdit))
      then value_of (NetworkManager.data st) NM_WG_KEY_ENDPOINT
      else endpoint_text d).
  { unfold value_of, r. cbn [NetworkManager.data setData].
    destruct (isEmpty (text (ui d endpointAddressLineEdit))).
    - rewrite plain_entries_other by apply endpoint_key_apart, Hdistinct. reflexivity.
    - rewrite WireGuardFacts.setProperty_same.
      pose proof (endpoint_text_colon d) as Hcolon.
      destruct (endpoint_text d); [discriminate Hcolon | reflexivity]. }
  split.
  - rewrite (loadConfig_returns_iff d2 r Hd2), Hvalue.
    destruct (isEmpty (text (ui d endpointAddressLineEdit))) eqn:Hempty.
    + apply isEmpty_true in Hempty. rewrite Hempty. intuition congruence.
    + apply isEmpty_false in Hempty. rewrite endpoint_text_colon. intuition.
  - intros Hempty Hnone. apply (loadConfig_fails d2 r Hd2).
    rewrite Hvalue, Hempty. cbn [isEmpty]. unfold value_of. rewrite Hnone. reflexivity.
Qed.

(** X4. What [loadConfig] leaves in the endpoint address field never has an
    opening bracket, and when the stored endpoint has no "]:" it has no
    colon either: the address ends at the first colon, so an IPv6 address
    stored without brackets does not come back whole. *)
Theorem loaded_address_plain (d d' : Private) (st : VpnSetting) :
  d_setting d = Some st ->
  loadConfig d = inr d' ->
  contains "[" (text (ui d' endpointAddressLineEdit)) = false
  /\ (contains "]:" (value_of (NetworkManager.data st) NM_WG_KEY_ENDPOINT) = false ->
      contains ":" (text (ui d' endpointAddressLineEdit)) = false).
Proof.
  intros Hst Hload.
  assert (Hcolon : contains ":" (value_of (NetworkManager.data st) NM_WG_KEY_ENDPOINT) = true).
  { apply (loadConfig_returns_iff d st Hst). eauto. }
  pose proof (WireGuardFacts.endpointList_eq (NetworkManager.data st)) as Hlist.
  cbv zeta in Hlist.
  set (stored := value_of (NetworkManager.data st) NM_WG_KEY_ENDPOINT) in *.
  assert (Hparts : exists e0 e1 rest,
            endpointList (NetworkManager.data st) = e0 :: e1 :: rest
            /\ (contains "]:" stored = false -> contains ":" e0 = false)).
  { rewrite Hlist. destruct (contains "]:" stored) eqn:Hbracket.
    - pose proof (split_with _ _ _ Hbracket) as Hlen.
      destruct (split "]:" stored) as [|e0 [|e1 rest]]; simpl in Hlen; try lia.
      exists e0, e1, rest. split; [reflexivity | discriminate].
    - unfold split. rewrite split_loop_eq. unfold contains in Hcolon.
      destruct (indexOf ":" stored) as [i|] eqn:Hi; [|discriminate].
      pose proof (split_loop_length ":" "" (mid (i + String.length ":") stored)) as Hlen.
      destruct (split_loop ":" "" (mid (i + String.length ":") stored)) as [|e1 rest];
        simpl in Hlen; [lia|].
      exists (left i stored), e1, rest. split; [reflexivity|].
      intros _. apply (left_before_first ":" stored i Hi). }
  destruct Hparts as (e0 & e1 & rest & Hparts & Hfirst).
  destruct (loadConfig_fields d st e0 e1 rest Hst Hparts)
    as (d'' & Hload' & _ & _ & Haddress & _).
  rewrite Hload in Hload'. injection Hload' as <-. rewrite Haddress. split.
  - apply (setText_keeps_absent "["), remove_gone.
  - intros Hbracket. apply (setText_keeps_absent ":"), remove_keeps_absent, Hfirst, Hbracket.
Qed.





End Loading.

Section Advanced.
Context {K : Constants}.

(** X6. Accepting the advanced dialog and saving.  When the dialog hands
    back a setting, its data become the stored data: the flags and the
    fields stay as they are, and in the map that [setting()] then returns
    every entry under a key other than the six of this widget is the
    dialog's, while the five plain keys still hold what is in the fields,
    whatever the dialog had stored under them.  A dialog that hands back
    null changes nothing. *)
Theorem advanced_data_saved (d : Private) (st advData : VpnSetting) :
  NoDup data_keys ->
  d_setting d = Some st ->
  advancedAccepted None d = inr d
  /\ exists d' r,
       advancedAccepted (Some advData) d = inr d'
       /\ ui d' = ui d
       /\ isValid d' = isValid d
       /\ setting d' = inr r
       /\ (forall w key, (w, key) ∈ data_fields ->
             NetworkManager.data r !! key
             = if isEmpty (text (ui d w)) then None else Some (text (ui d w)))
       /\ (forall key, key ∉ data_keys ->
             NetworkManager.data r !! key = NetworkManager.data advData !! key).
Proof.
  intros Hdistinct Hst. split; [reflexivity|].
  unfold advancedAccepted. rewrite Hst.
  eexists. eexists. split; [reflexivity|]. split; [reflexivity|].
  split; [reflexivity|].
  split; [apply setting_result; reflexivity|].
  cbn [NetworkManager.data setData with_setting ui d_setting].
  pose proof (endpoint_key_apart Hdistinct) as Hapart.
  split.
  - intros w key Hin.
    assert (Hkey : key <> NM_WG_KEY_ENDPOINT).
    { intros ->. apply Hapart, list_elem_of_fmap. exists (w, NM_WG_KEY_ENDPOINT). auto. }
    destruct (isEmpty (text (ui d endpointAddressLineEdit)));
      rewrite ?WireGuardFacts.setProperty_other by congruence;
      rewrite (plain_entries_field _ _ w key Hdistinct Hin); reflexivity.
  - intros key Hkey. unfold data_keys in Hkey.
    assert (Hout : (key ∉ fmap snd data_fields) /\ key <> NM_WG_KEY_ENDPOINT).
    { unfold data_fields. simpl. rewrite !not_elem_of_cons in *. intuition. }
    destruct Hout as [Hout Hne].
    destruct (isEmpty (text (ui d endpointAddressLineEdit)));
      rewrite ?WireGuardFacts.setProperty_other by congruence;
      apply plain_entries_other, Hout.
Qed.

End Advanced.

(** The statements at the sample widget. *)
Lemma valid_follows_texts_witness :
  isValid
    (changeTexts (V := Sample.validators)
       [(publicKeyLineEdit, "not a key"); (endpointPortLineEdit, "")]
       (checkEndpointValid (V := Sample.validators)
          (checkAllowedIpsValid (V := Sample.validators)
             (checkPublicKeyValid (V := Sample.validators)
                (checkPrivateKeyValid (V := Sample.validators)
                   (checkAddressValid (V := Sample.validators)
                      (Private_new (fun _ => Sample.emptyLineEdit) None)))))))
  = false.
Proof.
  destruct (valid_follows_texts (V := Sample.validators) (K := Sample.constants)
              (fun _ => Sample.emptyLineEdit) None _
              [(publicKeyLineEdit, "not a key"); (endpointPortLineEdit, "")] eq_refl)
    as (Hvalid & _).
  rewrite Hvalid. vm_compute. reflexivity.
Defined.


Lemma saved_setting_loads_witness :
  exists r,
    setting (K := Sample.constants)
      (Private_new (fun _ => Sample.emptyLineEdit) (Some Sample.vpnSettingNoEndpoint))
    = inr r
    /\ loadConfig (V := Sample.validators) (K := Sample.constants)
         (Private_new (fun _ => Sample.emptyLineEdit) (Some r))
       = inl (IndexOutOfRange 1 1).
Proof.
  destruct (saved_setting_loads (V := Sample.validators) (K := Sample.constants)
              (Private_new (fun _ => Sample.emptyLineEdit) (Some Sample.vpnSettingNoEndpoint))
              Sample.vpnSettingNoEndpoint)
    as (r & Hr & Hload).
  - apply (bool_decide_unpack _). vm_compute. exact I.
  - reflexivity.
  - exists r. split; [exact Hr|].
    apply (Hload (Private_new (fun _ => Sample.emptyLineEdit) (Some r)) eq_refl).
    + reflexivity.
    + vm_compute. reflexivity.
Defined.

Lemma loaded_address_plain_witness :
  exists d',
    loadConfig (V := Sample.validators) (K := Sample.constants)
      (Private_new (fun _ => Sample.emptyLineEdit) (Some Sample.vpnSettingBareIPv6))
    = inr d'
    /\ contains "[" (text (ui d' endpointAddressLineEdit)) = false
    /\ contains ":" (text (ui d' endpointAddressLineEdit)) = false.
Proof.
  destruct (loadConfig (V := Sample.validators) (K := Sample.constants)
              (Private_new (fun _ => Sample.emptyLineEdit) (Some Sample.vpnSettingBareIPv6)))
    as [fault | d'] eqn:Hload.
  - exfalso. vm_compute in Hload. discriminate Hload.
  - exists d'. split; [reflexivity|].
    destruct (loaded_address_plain (V := Sample.validators) (K := Sample.constants)
                (Private_new (fun _ => Sample.emptyLineEdit) (Some Sample.vpnSettingBareIPv6))
                d' Sample.vpnSettingBareIPv6 eq_refl Hload)
      as [Hopen Hcolon].
    split; [exact Hopen | apply Hcolon; vm_compute; reflexivity].
Defined.


Lemma advanced_data_saved_witness :
  exists d' r,
    advancedAccepted (Some Sample.vpnSettingNoEndpoint)
      (Sample.wireGuard "10.0.0.9/24" "" "" "" "0.0.0.0/0" "" "") = inr d'
    /\ setting (K := Sample.constants) d' = inr r
    /\ NetworkManager.data r !! "local-listen-port" = Some "51820"
    /\ NetworkManager.data r !! "local-ip4" = Some "10.0.0.9/24".
Proof.
  destruct (advanced_data_saved (K := Sample.constants)
              (Sample.wireGuard "10.0.0.9/24" "" "" "" "0.0.0.0/0" "" "")
              Sample.vpnSetting Sample.vpnSettingNoEndpoint)
    as (_ & d' & r & Haccept & _ & _ & Hsave & Hfields & Hother).
  - apply (bool_decide_unpack _). vm_compute. exact I.
  - reflexivity.
  - exists d', r. split; [exact Haccept|]. split; [exact Hsave|]. split.
    + etransitivity; [apply Hother | vm_compute; reflexivity].
      apply (bool_decide_unpack _). vm_compute. exact I.
    + etransitivity; [apply (Hfields addressIPv4LineEdit); apply list_elem_of_here|].
      reflexivity.
Defined.

End WireGuardLaws.

(** ** The network model: what a view reads *)

Module NetworkModelLaws.
Import Qt NetworkModel.

Lemma create_items (networkInterfaces : list NetworkManager.Device) :
  networkItems (create networkInterfaces)
  = (Some <$> omap item_of networkInterfaces)
      ++ [Some {| itemType := Vpn; path := EmptyString |}].
Proof.
  unfold create. simpl. rewrite NetworkModelFacts.foldl_visit by reflexivity. reflexivity.
Qed.

Section Reading.
Variable itemName : NetworkModelItem -> QString.
Variable itemIcon : NetworkModelItem -> QString.

(** [data] on a row that holds an item. *)
Lemma data_at (m : NetworkModel) (i : nat) (it : NetworkModelItem) (role : Role) :
  networkItems m !! i = Some (Some it) ->
  data itemName itemIcon m (Z.of_nat i) role
  = inr match role with
        | TypeRole => TypeValue (itemType it)
        | NameRole => StringValue (itemName it)
        | IconRole => StringValue (itemIcon it)
        | PathRole => StringValue (path it)
        | OtherRole _ => NoValue
        end.
Proof.
  intros Hit. unfold data. rewrite Nat2Z.id, Hit.
  pose proof (lookup_lt_Some _ _ _ Hit) as Hlt.
  rewrite (bool_decide_eq_true_2 (0 <= Z.of_nat i)%Z) by lia.
  rewrite bool_decide_eq_true_2 by lia. reflexivity.
Qed.

(** X7. Reading the constructed model.  [data] never meets a null item or
    a row past the list: it always returns a value.  Outside rows 0 ..
    count()-1 the value is the invalid [QVariant]; row i, for the i-th
    Ethernet, Modem or Wifi device, shows that device's item (its type and
    its path, the device's UNI); and the last row, count()-1, is the VPN
    item with an empty path. *)
Theorem networkModel_data (networkInterfaces : list NetworkManager.Device) :
  let m := create networkInterfaces in
  (forall row role, exists v, data itemName itemIcon m row role = inr v)
  /\ (forall row role, (row < 0 \/ count m <= row)%Z ->
        data itemName itemIcon m row role = inr NoValue)
  /\ (forall i it, omap item_of networkInterfaces !! i = Some it ->
        data itemName itemIcon m (Z.of_nat i) TypeRole = inr (TypeValue (itemType it))
        /\ data itemName itemIcon m (Z.of_nat i) PathRole = inr (StringValue (path it))
        /\ data itemName itemIcon m (Z.of_nat i) NameRole = inr (StringValue (itemName it))
        /\ data itemName itemIcon m (Z.of_nat i) IconRole = inr (StringValue (itemIcon it)))
  /\ data itemName itemIcon m (count m - 1) TypeRole = inr (TypeValue Vpn)
  /\ data itemName itemIcon m (count m - 1) PathRole = inr (StringValue EmptyString).
Proof.
  intros m.
  pose proof (create_items networkInterfaces) as Hitems. fold m in Hitems.
  assert (Hall : forall i p, networkItems m !! i = Some p -> exists it, p = Some it).
  { intros i p. rewrite Hitems. intros Hp.
    apply list_elem_of_lookup_2 in Hp. apply elem_of_app in Hp as [Hp | Hp].
    - apply list_elem_of_fmap in Hp as (it & -> & _). eauto.
    - apply list_elem_of_singleton in Hp. eauto. }
  assert (Hlast : networkItems m !! Z.to_nat (count m - 1)
                  = Some (Some {| itemType := Vpn; path := EmptyString |})).
  { unfold count. rewrite Hitems, length_app. simpl length.
    replace (Z.to_nat (Z.of_nat (length (Some <$> omap item_of networkInterfaces) + 1) - 1))
      with (length (Some <$> omap item_of networkInterfaces) + 0) by lia.
    rewrite lookup_app_r by lia.
    replace (length (Some <$> omap item_of networkInterfaces) + 0
             - length (Some <$> omap item_of networkInterfaces)) with 0 by lia.
    reflexivity. }
  assert (Hcount : (1 <= count m)%Z).
  { unfold count. rewrite Hitems, length_app. simpl length. lia. }
  split; [|split; [|split; [|split]]].
  - intros row role. unfold data.
    destruct (bool_decide (0 <= row)%Z && bool_decide (row < Z.of_nat (length (networkItems m)))%Z)
      eqn:Hrange; [|eauto].
    apply andb_true_iff in Hrange as [Hlo Hhi].
    apply bool_decide_eq_true in Hlo, Hhi.
    destruct (networkItems m !! Z.to_nat row) as [p|] eqn:Hp.
    + destruct (Hall _ _ Hp) as [it ->]. eauto.
    + apply lookup_ge_None in Hp. lia.
  - intros row role Hout. unfold data, count in *.
    destruct Hout as [Hneg | Hbig].
    + rewrite (bool_decide_eq_false_2 (0 <= row)%Z) by lia. reflexivity.
    + rewrite (bool_decide_eq_false_2 (row < _)%Z) by lia.
      rewrite andb_false_r. reflexivity.
  - intros i it Hit.
    assert (Hrow : networkItems m !! i = Some (Some it)).
    { rewrite Hitems. rewrite lookup_app_l.
      - rewrite list_lookup_fmap, Hit. reflexivity.
      - rewrite length_fmap. apply (lookup_lt_Some _ _ _ Hit). }
    split; [exact (data_at m i it TypeRole Hrow)|].
    split; [exact (data_at m i it PathRole Hrow)|].
    split; [exact (data_at m i it NameRole Hrow) | exact (data_at m i it IconRole Hrow)].
  - rewrite <- (Z2Nat.id (count m - 1)) by lia. exact (data_at m _ _ TypeRole Hlast).
  - rewrite <- (Z2Nat.id (count m - 1)) by lia. exact (data_at m _ _ PathRole Hlast).
Qed.

End Reading.

End NetworkModelLaws.

(** ** The bridge widget: construction, slaves, saving and loading again *)

Module BridgeLaws.
Import Qt Bridge BridgeSlaves QtFacts.

Lemma to_int_to_uint (v : Z) : is_int v -> to_int (to_uint v) = v.
Proof.
  unfold is_int, to_int, to_uint. intros Hv.
  rewrite Zplus_mod_idemp_l. rewrite Z.mod_small; lia.
Qed.

(** A spin box given its own value, and a line edit its own text. *)
Lemma setValue_own (b : QSpinBox) :
  box_wf b -> setValue (to_int (to_uint (value b))) b = b.
Proof.
  intros (Hmin & Hmax & Hin). unfold in_range in Hin.
  rewrite to_int_to_uint by (unfold is_int in *; lia).
  unfold setValue. destruct b as [lo hi v]. simpl in *.
  destruct (Z.ltb_spec v lo); [lia|]. destruct (Z.ltb_spec hi v); [lia|]. reflexivity.
Qed.

Lemma setText_own (e : QLineEdit) :
  (Z.of_nat (String.length (text e)) <= maxLength e)%Z -> setText (text e) e = e.
Proof.
  intros Hlen. pose proof (setText_text (text e) e Hlen) as Htext.
  unfold setText in *. simpl in Htext. rewrite Htext. destruct e; reflexivity.
Qed.

Section Widget.
Variable BridgeSetting_new : BridgeSetting.
Variable slaveLabel : QString -> NetworkManager.ConnectionType -> QString.

(** X8. Saving and loading again leaves the form as it is: on a form that
    holds what its widgets can hold, [loadConfig] of what [setting()] has
    just returned changes nothing in the widget, whether STP is checked or
    not. *)
Theorem bridge_save_load (w : BridgeWidget) :
  form_wf (m_ui w) ->
  loadConfig (setting BridgeSetting_new w) w = w.
Proof.
  intros (Hname & Haging & Hpriority & Hdelay & Hhello & Hage).
  unfold loadConfig, setting.
  destruct w as [uuid id ty u]. simpl m_ui in *.
  destruct (stpGroup u) eqn:Hstp; simpl;
    rewrite ?setText_own, ?setValue_own by assumption;
    unfold with_ui; simpl; f_equal; destruct u; simpl in *; congruence.
Qed.

(** The loop of [populateBridges] writes the list only. *)
Lemma foldl_addIfSlave_frame (listConnections : list Connection) (w : BridgeWidget) :
  let w' := foldl (addIfSlave slaveLabel) w listConnections in
  m_uuid w' = m_uuid w /\ m_id w' = m_id w /\ type w' = type w
  /\ with_bridges [] (m_ui w') = with_bridges [] (m_ui w).
Proof.
  revert w. induction listConnections as [|c l IH]; intros w; simpl; [auto|].
  destruct (IH (addIfSlave slaveLabel w c)) as (-> & -> & -> & ->).
  unfold addIfSlave. destruct (_ && _); auto.
Qed.

Lemma populateBridges_eq (listConnections : list Connection) (w : BridgeWidget) :
  populateBridges slaveLabel listConnections w
  = with_ui
      (with_bridges
         (slaveItem slaveLabel
            <$> List.filter
                  (fun c => isSlave w c
                            && bool_decide (NetworkManager.slaveType c = type w))
                  listConnections)
         (m_ui w))
      w.
Proof.
  pose proof (BridgeFacts.foldl_addIfSlave slaveLabel listConnections
                (with_ui (with_bridges [] (m_ui w)) w)) as Hlist.
  destruct (foldl_addIfSlave_frame listConnections (with_ui (with_bridges [] (m_ui w)) w))
    as (Huuid & Hid & Htype & Hform).
  unfold populateBridges.
  destruct (foldl (addIfSlave slaveLabel) (with_ui (with_bridges [] (m_ui w)) w)
              listConnections) as [uuid' id' ty' u'].
  destruct w as [uuid id ty u]. destruct u, u'.
  unfold with_ui, with_bridges, isSlave in *. simpl in *.
  injection Hform as -> -> -> -> -> -> ->. subst. reflexivity.
Qed.

(** X9. [populateBridges] starts from an empty list: the list it leaves
    depends on the stored connections and on the widget's UUID, id and type
    only, not on what the list held before, so running it again (as after
    every edit of a slave) neither duplicates nor loses an item; it never
    lists more items than there are connections, and writes nothing else in
    the form. *)
Theorem populateBridges_again (listConnections : list Connection) (w : BridgeWidget)
    (before : list QListWidgetItem) :
  let w' := populateBridges slaveLabel listConnections w in
  populateBridges slaveLabel listConnections w' = w'
  /\ populateBridges slaveLabel listConnections (with_ui (with_bridges before (m_ui w)) w)
     = w'
  /\ m_ui w' = with_bridges (bridges (m_ui w')) (m_ui w)
  /\ (count (bridges (m_ui w')) <= Z.of_nat (length listConnections))%Z.
Proof.
  intros w'. subst w'. rewrite !populateBridges_eq.
  destruct w as [uuid id ty u]. destruct u. unfold with_ui, with_bridges, count. simpl.
  repeat split.
  rewrite length_fmap. pose proof (filter_length_le
    (fun c => isSlave {| m_uuid := uuid; m_id := id; type := ty; m_ui :=
       {| ifaceName := ifaceName0; agingTime := agingTime0; stpGroup := stpGroup0;
          priority := priority0; forwardDelay := forwardDelay0; helloTime := helloTime0;
          maxAge := maxAge0; bridges := bridges0 |} |} c
              && bool_decide (NetworkManager.slaveType c = ty)) listConnections).
  lia.
Qed.

(** The list has an item exactly when some connection is a slave. *)
Lemma populateBridges_some (listConnections : list Connection) (w : BridgeWidget) :
  (exists item, item ∈ bridges (m_ui (populateBridges slaveLabel listConnections w)))
  <-> exists connection, connection ∈ listConnections /\ is_slave_of w connection.
Proof.
  rewrite populateBridges_eq. destruct w as [uuid id ty u]. destruct u.
  unfold with_ui, with_bridges. cbn [m_ui bridges]. split.
  - intros (item & Hin). apply list_elem_of_fmap in Hin as (c & _ & Hin).
    apply list_elem_of_In, filter_In in Hin as [Hin Hsel].
    exists c. split; [apply list_elem_of_In, Hin|].
    apply (BridgeFacts.selected_iff _ c) in Hsel. exact Hsel.
  - intros (c & Hin & Hslave). exists (slaveItem slaveLabel c).
    apply list_elem_of_fmap. exists c. split; [reflexivity|].
    apply list_elem_of_In, filter_In. split; [apply list_elem_of_In, Hin|].
    apply (BridgeFacts.selected_iff _ c). exact Hslave.
Qed.

Lemma isValid_iff (w : BridgeWidget) :
  isValid w = true
  <-> text (ifaceName (m_ui w)) <> EmptyString /\ exists item, item ∈ bridges (m_ui w).
Proof.
  unfold isValid, count. rewrite andb_true_iff, negb_true_iff, isEmpty_false.
  rewrite bool_decide_eq_true. split; intros [Hname Hlist]; (split; [exact Hname|]).
  - destruct (bridges (m_ui w)) as [|item l]; [simpl in Hlist; lia|].
    exists item. apply list_elem_of_here.
  - destruct Hlist as [item Hin]. destruct (bridges (m_ui w)); [|simpl; lia].
    apply elem_of_nil in Hin. destruct Hin.
Qed.

(** X10. A bridge widget fresh from its constructor is valid exactly when
    the interface name it shows is not empty and some stored connection is a
    slave of the bridge (by UUID or by non-empty id, with the widget's
    type).  The name shown is the setting's, cut to the line edit's length,
    or the form's own when there is no setting; whatever the form listed
    before is gone. *)
Theorem bridge_create_valid (masterUuid masterId widgetType : QString) (ui0 : Ui)
    (listConnections : list Connection) (s : option BridgeSetting) :
  let w := create slaveLabel masterUuid masterId widgetType ui0 listConnections s in
  let w0 := {| m_uuid := masterUuid; m_id := masterId; type := widgetType; m_ui := ui0 |} in
  let shown :=
    match s with
    | Some bridgeSetting =>
        text (setText (NetworkManager.interfaceName bridgeSetting) (ifaceName ui0))
    | None => text (ifaceName ui0)
    end in
  text (ifaceName (m_ui w)) = shown
  /\ bridges (m_ui w) = bridges (m_ui (populateBridges slaveLabel listConnections w0))
  /\ (isValid w = true
      <-> shown <> EmptyString
          /\ exists connection, connection ∈ listConnections /\ is_slave_of w0 connection).
Proof.
  intros w w0 shown.
  assert (Hname : text (ifaceName (m_ui w)) = shown).
  { unfold w, shown, create. fold w0. rewrite populateBridges_eq.
    destruct s; destruct ui0; reflexivity. }
  assert (Hlist : bridges (m_ui w)
                  = bridges (m_ui (populateBridges slaveLabel listConnections w0))).
  { unfold w, create. fold w0. destruct s; reflexivity. }
  split; [exact Hname|]. split; [exact Hlist|].
  rewrite isValid_iff, Hname, Hlist, populateBridges_some. reflexivity.
Qed.

End Widget.

Section Slaves.
Variable slaveLabel : QString -> NetworkManager.ConnectionType -> QString.
Variable findConnection : QString -> option Connection.
Variable findConnectionByUuid : QString -> option Connection.

(** X11. [bridgeAddComplete] adds at most one item, at the end of the
    list, and only for a reply that is valid, whose path names a connection
    and whose connection has the widget's UUID as master; in every other
    case, also for a connection that names the bridge by its id, the widget
    stays as it is.  The item added is the one [populateBridges] makes for
    the connection, and with a name in the form the widget is then valid. *)
Theorem bridgeAddComplete_adds (reply : AddReply) (w : BridgeWidget) :
  let w' := bridgeAddComplete slaveLabel findConnection reply w in
  (forall path connection,
     reply = ReplyPath path -> findConnection path = Some connection ->
     NetworkManager.master connection = m_uuid w ->
     w' = with_ui (with_bridges (bridges (m_ui w) ++ [slaveItem slaveLabel connection])
                     (m_ui w)) w
     /\ (text (ifaceName (m_ui w)) <> EmptyString -> isValid w' = true)
     /\ (NetworkManager.slaveType connection = type w ->
         forall listConnections, connection ∈ listConnections ->
           slaveItem slaveLabel connection
           ∈ bridges (m_ui (populateBridges slaveLabel listConnections w'))))
  /\ ((forall path connection,
         reply = ReplyPath path -> findConnection path = Some connection ->
         NetworkManager.master connection <> m_uuid w) ->
      w' = w).
Proof.
  intros w'. split.
  - intros path connection -> Hfound Hmaster.
    assert (Hw' : w' = with_ui (with_bridges (bridges (m_ui w)
                                    ++ [slaveItem slaveLabel connection]) (m_ui w)) w).
    { unfold w', bridgeAddComplete. rewrite Hfound.
      rewrite bool_decide_eq_true_2 by exact Hmaster. reflexivity. }
    split; [exact Hw'|]. split.
    + intros Hname. apply isValid_iff. rewrite Hw'. destruct w as [uuid id ty u].
      destruct u. cbn in *. split; [exact Hname|].
      exists (slaveItem slaveLabel connection). apply elem_of_app. right.
      apply list_elem_of_here.
    + intros Htype listConnections Hin. rewrite populateBridges_eq.
      rewrite Hw'. destruct w as [uuid id ty u]. destruct u. cbn in *.
      apply list_elem_of_fmap. exists connection. split; [reflexivity|].
      apply list_elem_of_In, filter_In. split; [apply list_elem_of_In, Hin|].
      unfold isSlave. cbn. rewrite (bool_decide_eq_true_2 _ Hmaster).
      rewrite (bool_decide_eq_true_2 _ Htype). reflexivity.
  - intros Hnone. unfold w', bridgeAddComplete.
    destruct reply as [path | message]; [|reflexivity].
    destruct (findConnection path) as [connection|] eqn:Hfound; [|reflexivity].
    rewrite bool_decide_eq_false_2; [reflexivity|].
    apply (Hnone path connection eq_refl Hfound).
Qed.

(** X12. [deleteBridge] removes a connection, and with it the current item
    and only that item, exactly when there is a current item, a connection
    with the item's UUID is found and the user says yes; otherwise nothing
    changes.  In particular an item whose connection is no longer found
    cannot be deleted, and deleting the only item makes the widget
    invalid. *)
Theorem deleteBridge_removes (answerYes : Connection -> bool) (currentItem : option nat)
    (w : BridgeWidget) :
  let result := deleteBridge findConnectionByUuid answerYes currentItem w in
  (forall connection,
     snd result = Some connection <->
     exists row item,
       currentItem = Some row /\ bridges (m_ui w) !! row = Some item
       /\ findConnectionByUuid (userData item) = Some connection
       /\ answerYes connection = true)
  /\ (forall row item connection,
        currentItem = Some row -> bridges (m_ui w) !! row = Some item ->
        findConnectionByUuid (userData item) = Some connection ->
        answerYes connection = true ->
        bridges (m_ui (fst result)) = delete row (bridges (m_ui w))
        /\ (count (bridges (m_ui (fst result))) = count (bridges (m_ui w)) - 1)%Z
        /\ (bridges (m_ui w) = [item] -> isValid (fst result) = false))
  /\ (snd result = None -> fst result = w).
Proof.
  intros result. unfold result, deleteBridge. split; [|split].
  - intros connection. split.
    + destruct currentItem as [row|]; [|discriminate].
      destruct (bridges (m_ui w) !! row) as [item|] eqn:Hitem; [|discriminate].
      destruct (findConnectionByUuid (userData item)) as [c|] eqn:Hfound; [|discriminate].
      destruct (answerYes c) eqn:Hyes; [|discriminate].
      intros [= <-]. exists row, item. auto.
    + intros (row & item & -> & Hitem & Hfound & Hyes).
      rewrite Hitem, Hfound, Hyes. reflexivity.
  - intros row item connection -> Hitem Hfound Hyes.
    rewrite Hitem, Hfound, Hyes. destruct w as [uuid id ty u]. destruct u.
    cbn in *. split; [reflexivity|]. split.
    + unfold count. rewrite length_delete by eauto.
      pose proof (lookup_lt_Some _ _ _ Hitem). lia.
    + intros ->. destruct row as [|row]; [|discriminate Hitem].
      unfold isValid. cbn. apply andb_false_r.
  - destruct currentItem as [row|]; [|reflexivity].
    destruct (bridges (m_ui w) !! row) as [item|]; [|reflexivity].
    destruct (findConnectionByUuid (userData item)) as [c|]; [|reflexivity].
    destruct (answerYes c); [discriminate | reflexivity].
Qed.

(** X13. The settings [addBridge] hands to the editor make a slave of this
    bridge: they carry the new UUID, the widget's UUID as master and its
    type as slave type, and do not connect automatically.  Stored with
    master and slave type as they are (whatever name the editor gives),
    the connection is added by [bridgeAddComplete] and listed by
    [populateBridges]. *)
Theorem addBridge_makes_slave (w : BridgeWidget)
    (connectionType : NetworkManager.ConnectionType) (newUuid name : QString) :
  let settings := addBridge w connectionType newUuid in
  let connection := stored (setId name settings) in
  uuid settings = newUuid /\ master settings = m_uuid w
  /\ slaveType settings = type w /\ autoconnect settings = false
  /\ BridgeSlaves.connectionType settings = connectionType
  /\ is_slave_of w connection
  /\ (forall path, findConnection path = Some connection ->
        bridges (m_ui (bridgeAddComplete slaveLabel findConnection (ReplyPath path) w))
        = bridges (m_ui w) ++ [slaveItem slaveLabel connection])
  /\ (forall listConnections, connection ∈ listConnections ->
        slaveItem slaveLabel connection
        ∈ bridges (m_ui (populateBridges slaveLabel listConnections w))).
Proof.
  intros settings connection.
  assert (Hslave : is_slave_of w connection).
  { unfold is_slave_of. split; [left|]; reflexivity. }
  repeat split; try reflexivity.
  - exact (proj1 Hslave).
  - intros path Hfound. unfold bridgeAddComplete. rewrite Hfound.
    rewrite bool_decide_eq_true_2 by reflexivity.
    destruct w as [uuid0 id0 ty u]. destruct u. reflexivity.
  - intros listConnections Hin. rewrite populateBridges_eq.
    destruct w as [uuid0 id0 ty u]. destruct u. cbn [with_ui with_bridges m_ui bridges].
    apply list_elem_of_fmap. exists connection. split; [reflexivity|].
    apply list_elem_of_In, filter_In. split; [apply list_elem_of_In, Hin|].
    apply (BridgeFacts.selected_iff _ connection). exact Hslave.
Qed.

End Slaves.

Lemma bridge_save_load_witness :
  loadConfig (setting Sample.bridgeDefaults Sample.bridgeWidget) Sample.bridgeWidget
  = Sample.bridgeWidget.
Proof.
  apply (bridge_save_load Sample.bridgeDefaults Sample.bridgeWidget).
  vm_compute. repeat (split || intro); done.
Defined.

(** The slave handlers on the sample connections. *)
Example bridgeAddComplete_by_uuid :
  bridges
    (m_ui
       (bridgeAddComplete Sample.slaveLabel (fun _ => Some Sample.slaveByUuid)
          (ReplyPath "/org/freedesktop/NetworkManager/Settings/7") Sample.bridgeWidget))
  = [ {| label := "eth-slave (Wired Ethernet)"; userData := "11111111-aaaa" |} ].
Proof. vm_compute. reflexivity. Qed.

Example bridgeAddComplete_by_name :
  bridgeAddComplete Sample.slaveLabel (fun _ => Some Sample.slaveByName)
    (ReplyPath "/org/freedesktop/NetworkManager/Settings/8") Sample.bridgeWidget
  = Sample.bridgeWidget.
Proof. vm_compute. reflexivity. Qed.

Example deleteBridge_connection_gone :
  deleteBridge (fun _ => None) (fun _ => true) (Some 0)
    (populateBridges Sample.slaveLabel [Sample.slaveByUuid] Sample.bridgeWidget)
  = (populateBridges Sample.slaveLabel [Sample.slaveByUuid] Sample.bridgeWidget, None).
Proof. vm_compute. reflexivity. Qed.

End BridgeLaws.
